(** * Website quality scoring: the two analyzers of the lead generator

    A shallow embedding of [business_analyzer.py] (module [Full]) and of
    [simple_analyzer.py] (module [Simple]): the single-URL analysis
    [analyze_website], the contact extraction and the batch driver
    [batch_analyze], with the properties their description states.

    Python strings are modelled by [string]; one [ascii] stands for one
    character of the Latin-1 range (code points 0 to 255), which holds the
    copyright sign (169) and the two characters the source of the simple
    analyzer spells it with (194, 169).  The network, the HTML parsers and
    the clock are outside the repository: they are an oracle [World], asked
    at the index of the current event, and the analysis threads the log of
    the events it caused. *)

From Stdlib Require Import ZArith List Bool Ascii String Lia Sorted.
From Stdlib Require Import DecimalString DecimalNat DecimalZ.
Import ListNotations.

Open Scope string_scope.
Open Scope Z_scope.

(** ** Python string operations *)

Module PyStr.

(** [s.startswith(p)] *)
Definition startswith (s p : string) : bool := prefix p s.

(** [needle in hay] *)
Fixpoint str_in (needle hay : string) : bool :=
  prefix needle hay ||
  match hay with
  | EmptyString => false
  | String _ hay' => str_in needle hay'
  end.

(** [s.replace(old, new)] for a non-empty [old]: every occurrence, left to
    right, without overlap.  [skip] counts the characters of an occurrence
    that are still to be dropped. *)
Fixpoint replace_from (skip : nat) (old new s : string) : string :=
  match s with
  | EmptyString => EmptyString
  | String c s' =>
      match skip with
      | S k => replace_from k old new s'
      | O =>
          if prefix old s
          then new ++ replace_from (Nat.pred (String.length old)) old new s'
          else String c (replace_from O old new s')
      end
  end.

Definition replace (s old new : string) : string := replace_from O old new s.

Definition code (c : ascii) : nat := nat_of_ascii c.

Definition between (lo hi : nat) (c : ascii) : bool :=
  Nat.leb lo (code c) && Nat.leb (code c) hi.

(** [c.lower()]: the capital letters of Latin-1 are 65..90 and 192..222
    without the multiplication sign 215, each 32 below its small letter. *)
Definition lower_char (c : ascii) : ascii :=
  if between 65 90 c || (between 192 222 c && negb (Nat.eqb (code c) 215))
  then ascii_of_nat (code c + 32)
  else c.

Fixpoint lower (s : string) : string :=
  match s with
  | EmptyString => EmptyString
  | String c s' => String (lower_char c) (lower s')
  end.

(** [c.isspace()] on Latin-1 *)
Definition is_space (c : ascii) : bool :=
  between 9 13 c || between 28 32 c || Nat.eqb (code c) 133 || Nat.eqb (code c) 160.

Fixpoint lstrip (s : string) : string :=
  match s with
  | EmptyString => EmptyString
  | String c s' => if is_space c then lstrip s' else s
  end.

Fixpoint rstrip (s : string) : string :=
  match s with
  | EmptyString => EmptyString
  | String c s' =>
      match rstrip s' with
      | EmptyString => if is_space c then EmptyString else String c EmptyString
      | r => String c r
      end
  end.

(** [s.strip()] *)
Definition strip (s : string) : string := rstrip (lstrip s).

(** [s[:n]] *)
Definition take (n : nat) (s : string) : string := substring 0 n s.

(** [str(n)] of an integer *)
Definition str_of_Z (z : Z) : string := NilEmpty.string_of_int (Z.to_int z).
Definition str_of_nat (n : nat) : string := NilEmpty.string_of_uint (Nat.to_uint n).

(** [a in s] of one character *)
Fixpoint has_char (a : ascii) (s : string) : bool :=
  match s with
  | EmptyString => false
  | String c s' => Ascii.eqb a c || has_char a s'
  end.

(** [all(f(c) for c in s)] *)
Fixpoint all_chars (f : ascii -> bool) (s : string) : bool :=
  match s with
  | EmptyString => true
  | String c s' => f c && all_chars f s'
  end.

(** [not s] of a string *)
Definition is_empty (s : string) : bool :=
  match s with EmptyString => true | _ => false end.

End PyStr.

(** ** The fragment of [re] the patterns use

    Each pattern is a sequence of character classes under a greedy counted
    repetition, of [\b] assertions and of the parentheses of one capturing
    group; [match_here] is the backtracking matcher of such a sequence at
    one position. *)

Module Re.
Import PyStr.

Inductive item : Type :=
| Rep (cls : ascii -> bool) (lo : nat) (hi : option nat)
| WordBoundary
| GroupOpen
| GroupClose.

Definition pattern := list item.

(** A match seen from the position reached so far: the text from here to
    the end of the match, where in it group 1 closes, and the text of
    group 1 once its opening parenthesis is passed. *)
Record found : Type := mkFound {
  text : string;
  close_at : option nat;
  group1 : option string
}.

Definition push (c : ascii) (r : found) : found :=
  mkFound (String c (text r)) (option_map S (close_at r)) (group1 r).

Definition close_here (r : found) : found :=
  mkFound (text r) (Some O) (group1 r).

Definition open_here (r : found) : found :=
  mkFound (text r) (close_at r) (option_map (fun n => take n (text r)) (close_at r)).

(** [\d] and [\w] of a [str] pattern, on Latin-1 *)
Definition is_digit (c : ascii) : bool := between 48 57 c.

Definition is_word (c : ascii) : bool :=
  is_digit c || between 65 90 c || between 97 122 c || Nat.eqb (code c) 95
  || Nat.eqb (code c) 170 || between 178 179 c || Nat.eqb (code c) 181
  || between 185 186 c || between 188 190 c
  || between 192 214 c || between 216 246 c || between 248 255 c.

Definition is_word_at (c : option ascii) : bool :=
  match c with Some c => is_word c | None => false end.

Definition first_char (s : string) : option ascii :=
  match s with EmptyString => None | String c _ => Some c end.

Definition may_repeat (hi : option nat) : bool :=
  match hi with Some O => false | _ => true end.

(** A greedy repetition: one more character while the class and the bound
    allow it, and on failure of what follows, one character less. *)
Fixpoint rep (cls : ascii -> bool) (k : option ascii -> string -> option found)
    (lo : nat) (hi : option nat) (prev : option ascii) (s : string)
    : option found :=
  let stop := match lo with O => k prev s | S _ => None end in
  match s with
  | EmptyString => stop
  | String c s' =>
      if cls c && may_repeat hi then
        match rep cls k (Nat.pred lo) (option_map Nat.pred hi) (Some c) s' with
        | Some r => Some (push c r)
        | None => stop
        end
      else stop
  end.

(** The match at this position ([prev] is the character before it). *)
Fixpoint match_here (p : pattern) : option ascii -> string -> option found :=
  match p with
  | [] => fun _ _ => Some (mkFound EmptyString None None)
  | Rep cls lo hi :: p' => rep cls (match_here p') lo hi
  | WordBoundary :: p' => fun prev s =>
      if xorb (is_word_at prev) (is_word_at (first_char s))
      then match_here p' prev s
      else None
  | GroupOpen :: p' => fun prev s => option_map open_here (match_here p' prev s)
  | GroupClose :: p' => fun prev s => option_map close_here (match_here p' prev s)
  end.

(** The leftmost match and where it starts. *)
Fixpoint search_from (p : pattern) (prev : option ascii) (s : string)
    : option (option ascii * string * found) :=
  match match_here p prev s with
  | Some r => Some (prev, s, r)
  | None =>
      match s with
      | EmptyString => None
      | String c s' => search_from p (Some c) s'
      end
  end.

(** [p.search(s)]; [m.group(0)] is [text m], [m.group(1)] is [group1 m] *)
Definition search (p : pattern) (s : string) : option found :=
  option_map snd (search_from p None s).

Definition group0 (m : found) : string := text m.

Definition group_1 (m : found) : string :=
  match group1 m with Some g => g | None => EmptyString end.

Fixpoint drop (n : nat) (prev : option ascii) (s : string) : option ascii * string :=
  match n, s with
  | S n', String c s' => drop n' (Some c) s'
  | _, _ => (prev, s)
  end.

(** [p.findall(s)] of a pattern without a group: the texts of the
    successive matches, the next search starting where the match ended
    (one character further after an empty match). *)
Fixpoint findall_from (fuel : nat) (p : pattern) (prev : option ascii) (s : string)
    : list string :=
  match fuel with
  | O => []
  | S fuel' =>
      match search_from p prev s with
      | None => []
      | Some (prev0, s0, r) =>
          text r ::
          match text r, s0 with
          | EmptyString, EmptyString => []
          | EmptyString, String c s1 => findall_from fuel' p (Some c) s1
          | _, _ =>
              let '(prev1, s1) := drop (String.length (text r)) prev0 s0 in
              findall_from fuel' p prev1 s1
          end
      end
  end.

Definition findall (p : pattern) (s : string) : list string :=
  findall_from (S (String.length s)) p None s.

Definition one (cls : ascii -> bool) : item := Rep cls 1 (Some 1%nat).
Definition exactly (n : nat) (cls : ascii -> bool) : item := Rep cls n (Some n).
Definition optional (cls : ascii -> bool) : item := Rep cls 0 (Some 1%nat).
Definition at_least (n : nat) (cls : ascii -> bool) : item := Rep cls n None.

Definition is_char (a c : ascii) : bool := Ascii.eqb a c.

(** [[-.]] *)
Definition cls_sep (c : ascii) : bool := is_char "-" c || is_char "." c.

Definition is_alpha (c : ascii) : bool := between 65 90 c || between 97 122 c.

(** [[A-Za-z0-9._%+-]] *)
Definition cls_local (c : ascii) : bool :=
  is_alpha c || is_digit c || is_char "." c || is_char "_" c
  || is_char "%" c || is_char "+" c || is_char "-" c.

(** [[A-Za-z0-9.-]] *)
Definition cls_domain (c : ascii) : bool :=
  is_alpha c || is_digit c || is_char "." c || is_char "-" c.

(** [[A-Z|a-z]]: the bar is a member of the class *)
Definition cls_tld (c : ascii) : bool := is_alpha c || is_char "|" c.

(** [\d{3}[-.]?\d{3}[-.]?\d{4}] *)
Definition phone_body : pattern :=
  [ exactly 3 is_digit; optional cls_sep; exactly 3 is_digit;
    optional cls_sep; exactly 4 is_digit ].

(** [[A-Za-z0-9._%+-]+@[A-Za-z0-9.-]+\.[A-Z|a-z]{2,}] *)
Definition email_body : pattern :=
  [ at_least 1 cls_local; one (is_char "@"); at_least 1 cls_domain;
    one (is_char "."); at_least 2 cls_tld ].

(** The number of characters a match has at least. *)
Definition min_len_item (i : item) : nat :=
  match i with Rep _ lo _ => lo | _ => O end.

Definition min_len (p : pattern) : nat :=
  fold_right (fun i n => (min_len_item i + n)%nat) O p.

(** The number of characters a match has at most, if the pattern bounds
    it. *)
Definition max_len_item (i : item) : option nat :=
  match i with Rep _ _ hi => hi | _ => Some O end.

Fixpoint max_len (p : pattern) : option nat :=
  match p with
  | [] => Some O
  | i :: p' =>
      match max_len_item i, max_len p' with
      | Some a, Some b => Some (a + b)%nat
      | _, _ => None
      end
  end.

(** The characters a match can consist of. *)
Definition item_allows (c : ascii) (i : item) : bool :=
  match i with Rep cls _ _ => cls c | _ => false end.

Definition allows (p : pattern) (c : ascii) : bool := existsb (item_allows c) p.

(** The pattern without its parentheses. *)
Definition is_paren (i : item) : bool :=
  match i with GroupOpen | GroupClose => true | _ => false end.


(** A match of what precedes a closing parenthesis at the end of the
    pattern: group 1 closes where the match ends and is not open yet. *)
Definition closes_at_end (r : found) : Prop :=
  close_at r = Some (String.length (text r)) /\ group1 r = None.

End Re.

Import PyStr.

(** ** The result record and what the two analyzers share *)

Inductive Status : Type := analyzed | error.

(** The dictionary an analysis returns.  The four keys every record has
    are plain fields; a key that some records lack is an [option]. *)
Record AnalysisResult : Type := mkResult {
  url : string;
  quality_score : Z;
  issues : list string;
  status : Status;
  needs_redesign : option bool;
  is_hot_lead : option bool;
  business_name : option string;
  phone : option string;
  email : option string;
  analysis_date : option string
}.

(** [r.get(key, False)], the way export and summary read the two flags *)
Definition get_flag (field : option bool) : bool :=
  match field with Some b => b | None => false end.

(** The keys of a record beyond the four it always has, in the order
    needs_redesign, is_hot_lead, business_name, phone, email, analysis_date. *)
Definition isSome {A : Type} (o : option A) : bool :=
  match o with Some _ => true | None => false end.

Definition optional_keys (r : AnalysisResult) : list bool :=
  [ isSome (needs_redesign r); isSome (is_hot_lead r); isSome (business_name r);
    isSome (phone r); isSome (email r); isSome (analysis_date r) ].

(** [datetime.now()]: its year and its [strftime('%Y-%m-%d %H:%M:%S')] *)
Record DateTime : Type := mkDateTime { year : Z; strftime : string }.

(** What an analysis does to the outside, latest event first. *)
Inductive Event : Type :=
| Get (target : string)
| Head (target : string)
| Sleep (seconds : Z).

Definition Log := list Event.

Definition clock (log : Log) : nat := List.length log.

(** The page requests of a log, in the order they were made. *)
Definition requests (log : Log) : list string :=
  flat_map (fun e => match e with Get u => [u] | _ => [] end) (rev log).

(** The issues so far and the running score. *)
Definition Tally : Type := list string * Z.

Definition start : Tally := ([], 100).

(** [issues.append(issue); score -= points] *)
Definition add_issue (issue : string) (points : Z) (t : Tally) : Tally :=
  ((fst t ++ [issue])%list, snd t - points).

(** [if triggered: issues.append(issue); score -= points] *)
Definition deduct (triggered : bool) (issue : string) (points : Z) (t : Tally) : Tally :=
  if triggered then add_issue issue points t else t.

(** [if not url.startswith(('http://', 'https://')): url = 'https://' + url] *)
Definition ensure_protocol (u : string) : string :=
  if startswith u "http://" || startswith u "https://" then u else "https://" ++ u.

(** [url.replace('https://', 'http://')] *)
Definition to_http (u : string) : string := replace u "https://" "http://".

(** [range(a, b)] *)
Definition py_range (a b : Z) : list Z :=
  map (fun i => a + Z.of_nat i) (seq 0 (Z.to_nat (b - a))).

(** The copyright sign, and the two characters the simple analyzer has
    in its place. *)
Definition copyright_sign : string := String "169" EmptyString.
Definition copyright_sign_twice_encoded : string := String "194" (String "169" EmptyString).

Definition mentions_year (sign text : string) (y : Z) : bool :=
  str_in (sign ++ " " ++ str_of_Z y) text || str_in ("copyright " ++ str_of_Z y) text.

(** [for year in range(2015, current_year - 1): if ... in text: ...; break]:
    the year the loop stops at. *)
Definition outdated_copyright (sign : string) (current_year : Z) (text : string) : option Z :=
  find (mentions_year sign text) (py_range 2015 (current_year - 1)).

Definition check_copyright (sign : string) (current_year : Z) (text : string) (t : Tally) : Tally :=
  match outdated_copyright sign current_year text with
  | Some y => add_issue ("Outdated copyright: " ++ str_of_Z y) 10 t
  | None => t
  end.

(** [for phrase in phrases: if phrase in text: ...; break] *)
Definition under_construction (phrases : list string) (text : string) : bool :=
  existsb (fun phrase => str_in phrase text) phrases.

(** [d.get(key)] of the dictionary built from the pairs [d]: of two pairs
    with one key the later one counts. *)
Fixpoint dict_get {V : Type} (key : string) (d : list (string * V)) : option V :=
  match d with
  | [] => None
  | (k, v) :: d' =>
      match dict_get key d' with
      | Some v' => Some v'
      | None => if String.eqb k key then Some v else None
      end
  end.

(** [\b\d{3}[-.]?\d{3}[-.]?\d{4}\b] and
    [\b[A-Za-z0-9._%+-]+@[A-Za-z0-9.-]+\.[A-Z|a-z]{2,}\b], the patterns
    of the contact check of both analyzers *)
Definition phone_pattern : Re.pattern :=
  ([Re.WordBoundary] ++ Re.phone_body ++ [Re.WordBoundary])%list.
Definition email_pattern : Re.pattern :=
  ([Re.WordBoundary] ++ Re.email_body ++ [Re.WordBoundary])%list.

(** The points an issue string stands for: the strings with a variable
    part are told by their fixed part. *)
Fixpoint split_at_space (s : string) : string * string :=
  match s with
  | EmptyString => (EmptyString, EmptyString)
  | String c s' =>
      if Ascii.eqb c " " then (EmptyString, s)
      else let p := split_at_space s' in (String c (fst p), snd p)
  end.

Definition broken_count (issue : string) : option nat :=
  let p := split_at_space issue in
  match NilEmpty.uint_of_string (fst p) with
  | Some d => if String.eqb (snd p) " broken images" then Some (Nat.of_uint d) else None
  | None => None
  end.

Definition fixed_deductions : list (string * Z) :=
  [ ("HTTPS not available", 20); ("No HTTPS", 20); ("No mobile viewport", 15);
    ("Contains Lorem ipsum", 25); ("Under construction", 30);
    ("Uses Flash/embedded objects", 25); ("No charset declaration", 5);
    ("Poor/missing page title", 15); ("No contact info found", 20) ].

Definition deduction_of (issue : string) : Z :=
  match broken_count issue with
  | Some n => 5 * Z.of_nat n
  | None =>
      if startswith issue "HTTP " then 30
      else if startswith issue "Outdated copyright: " then 10
      else if startswith issue "HTML parsing error: " then 10
      else match find (fun d => String.eqb (fst d) issue) fixed_deductions with
           | Some d => snd d
           | None => 0
           end
  end.

Definition total_deductions (l : list string) : Z :=
  fold_right (fun issue n => deduction_of issue + n) 0 l.

(** The running score is 100 less the points of the issues so far. *)
Definition explained (t : Tally) : Prop :=
  snd t = 100 - total_deductions (fst t) /\ snd t <= 100.

(** The recorded score is what the recorded issues account for. *)
Definition score_explained (r : AnalysisResult) : Prop :=
  quality_score r = Z.max 0 (100 - total_deductions (issues r)) /\
  0 <= quality_score r <= 100.

(** ** The batch driver, the same in both analyzers

    [for i, url in enumerate(urls, 1)]: analyse, append, and sleep unless
    the URL is the last one. *)
Section Batch.

Variable analyze : string -> Log -> AnalysisResult * Log.

Fixpoint batch_loop (delay : Z) (total i : nat) (urls : list string)
    (results : list AnalysisResult) (log : Log) : list AnalysisResult * Log :=
  match urls with
  | [] => (results, log)
  | u :: rest =>
      let step := analyze u log in
      let results := (results ++ [fst step])%list in
      let log := if Nat.ltb i total then Sleep delay :: snd step else snd step in
      batch_loop delay total (S i) rest results log
  end.

Definition batch (urls : list string) (delay : Z) (log : Log)
    : list AnalysisResult * Log :=
  batch_loop delay (List.length urls) 1 urls [] log.


End Batch.

(** ** business_analyzer.py *)

Module Full.

(** [session.get]: a response whatever its status code, or an exception,
    of which the code tells [requests.exceptions.SSLError] from the rest
    ([msg] is [str(e)]). *)
Inductive GetOutcome : Type :=
| Response (status_code : Z) (content : string)
| RaiseSSLError (msg : string)
| RaiseOther (msg : string).

Inductive HeadOutcome : Type :=
| HeadResponse (status_code : Z)
| HeadRaise.

(** An element of the parsed page: its name, its attribute dictionary
    and its [.text]. *)
Record Tag : Type := mkTag {
  tag_name : string;
  tag_attrs : list (string * string);
  tag_text : string
}.

(** What the code asks of a [BeautifulSoup] object: the elements in
    document order and [get_text()]. *)
Record Soup : Type := mkSoup {
  soup_tags : list Tag;
  soup_text : string
}.

(** [BeautifulSoup(response.content, 'html.parser')]: the parsed page, or
    the exception the parser raises on markup it rejects ([msg] is
    [str(e)]). *)
Inductive SoupOutcome : Type :=
| Parsed (soup : Soup)
| RaiseRejected (msg : string).

(** The collaborators: [session_get at url verify], [session_head at url],
    [urljoin base src] ([None] when it raises), the parser and the clock;
    [at] is the number of events before the call. *)
Record World : Type := mkWorld {
  session_get : nat -> string -> bool -> GetOutcome;
  session_head : nat -> string -> HeadOutcome;
  urljoin : string -> string -> option string;
  BeautifulSoup : string -> SoupOutcome;
  now : nat -> DateTime
}.

(** [soup.find(name)] *)
Definition find_tag (soup : Soup) (name : string) : option Tag :=
  find (fun t => String.eqb (tag_name t) name) (soup_tags soup).

(** [soup.find('meta', attrs={'name': 'viewport'})] *)
Definition find_viewport (soup : Soup) : option Tag :=
  find (fun t => String.eqb (tag_name t) "meta" &&
                 match dict_get "name" (tag_attrs t) with
                 | Some v => String.eqb v "viewport"
                 | None => false
                 end) (soup_tags soup).

(** [soup.find('meta', attrs={'charset': True})] *)
Definition find_charset (soup : Soup) : option Tag :=
  find (fun t => String.eqb (tag_name t) "meta" && isSome (dict_get "charset" (tag_attrs t)))
       (soup_tags soup).

(** [soup.find_all(name)] *)
Definition find_all (soup : Soup) (name : string) : list Tag :=
  filter (fun t => String.eqb (tag_name t) name) (soup_tags soup).

Definition construction_phrases : list string :=
  [ "under construction"; "coming soon"; "website under development";
    "site under construction"; "page under construction" ].

(** [soup.find('object') or soup.find('embed')] *)
Definition uses_embedded (soup : Soup) : bool :=
  isSome (find_tag soup "object") || isSome (find_tag soup "embed").

(** [not title or len(title.text.strip()) < 10] *)
Definition poor_title (soup : Soup) : bool :=
  match find_tag soup "title" with
  | None => true
  | Some title => Nat.ltb (String.length (strip (tag_text title))) 10
  end.

(** [not phones and not emails], the lists of [findall] *)
Definition no_contact (text_content : string) : bool :=
  match Re.findall phone_pattern text_content, Re.findall email_pattern text_content with
  | [], [] => true
  | _, _ => false
  end.

(** One turn of the loop over the images: a 404 and any exception of
    [urljoin] or of the request count as broken. *)
Definition probe (w : World) (page : string) (acc : nat * Log) (img : Tag) : nat * Log :=
  match dict_get "src" (tag_attrs img) with
  | None => acc
  | Some src =>
      if is_empty src then acc
      else match urljoin w page src with
           | None => (S (fst acc), snd acc)
           | Some img_url =>
               match session_head w (clock (snd acc)) img_url with
               | HeadResponse code =>
                   (if code =? 404 then S (fst acc) else fst acc, Head img_url :: snd acc)
               | HeadRaise => (S (fst acc), Head img_url :: snd acc)
               end
           end
  end.

(** [for img in images[:5]: ...] *)
Definition count_broken (w : World) (page : string) (soup : Soup) (log : Log) : nat * Log :=
  fold_left (probe w page) (firstn 5 (find_all soup "img")) (O, log).

(** The patterns of [extract_business_info]: those of the check with
    what lies between the two [\b] in a group. *)
Definition phone_group_pattern : Re.pattern :=
  ([Re.WordBoundary; Re.GroupOpen] ++ Re.phone_body ++ [Re.GroupClose; Re.WordBoundary])%list.
Definition email_group_pattern : Re.pattern :=
  ([Re.WordBoundary; Re.GroupOpen] ++ Re.email_body ++ [Re.GroupClose; Re.WordBoundary])%list.

(** The dictionary [info]: a key is set only when its source was found. *)
Record BusinessInfo : Type := mkInfo {
  info_name : option string;
  info_phone : option string;
  info_email : option string
}.

Definition falsy (o : option string) : bool :=
  match o with Some s => is_empty s | None => true end.

Definition extract_business_info (soup : Soup) (text_content : string) : BusinessInfo :=
  let from_title := option_map (fun t => strip (tag_text t)) (find_tag soup "title") in
  let name :=
    match find_tag soup "h1" with
    | Some h1 => if falsy from_title then Some (strip (tag_text h1)) else from_title
    | None => from_title
    end in
  mkInfo name
         (option_map Re.group_1 (Re.search phone_group_pattern text_content))
         (option_map Re.group_1 (Re.search email_group_pattern text_content)).

(** [info.get(key, '')] *)
Definition get_or_empty (o : option string) : string :=
  match o with Some s => s | None => EmptyString end.

(** The record of the three [return] statements of the error paths. *)
Definition error_result (u issue : string) : AnalysisResult :=
  mkResult u 0 [issue] error None None None None None None.

(** The outcome of the connectivity test. *)
Inductive Fetched : Type :=
| Got (final_url : string) (status_code : Z) (content : string) (t : Tally) (log : Log)
| Failed (r : AnalysisResult) (log : Log).

(** The connectivity test: the request, on [SSLError] the same request
    with the scheme replaced and with verification, and the two error
    returns. *)
Definition connect (w : World) (u : string) (t : Tally) (log : Log) : Fetched :=
  match session_get w (clock log) u false with
  | Response code content => Got u code content t (Get u :: log)
  | RaiseSSLError _ =>
      let log := Get u :: log in
      let u := to_http u in
      match session_get w (clock log) u true with
      | Response code content =>
          Got u code content (add_issue "HTTPS not available" 20 t) (Get u :: log)
      | _ => Failed (error_result u "Site not accessible") (Get u :: log)
      end
  | RaiseOther msg => Failed (error_result u ("Connection error: " ++ msg)) (Get u :: log)
  end.

(** The checks on the parsed page, in the order of the source, and the
    record of a completed analysis. *)
Definition inspect (w : World) (u : string) (soup : Soup) (t : Tally) (log : Log)
    : AnalysisResult * Log :=
  let t := deduct (negb (startswith u "https://")) "No HTTPS" 20 t in
  let t := deduct (negb (isSome (find_viewport soup))) "No mobile viewport" 15 t in
  let text_content := lower (soup_text soup) in
  let current_year := year (now w (clock log)) in
  let t := check_copyright copyright_sign current_year text_content t in
  let t := deduct (str_in "lorem ipsum" text_content) "Contains Lorem ipsum" 25 t in
  let t := deduct (under_construction construction_phrases text_content)
                  "Under construction" 30 t in
  let t := deduct (uses_embedded soup) "Uses Flash/embedded objects" 25 t in
  let t := deduct (negb (isSome (find_charset soup))) "No charset declaration" 5 t in
  let t := deduct (poor_title soup) "Poor/missing page title" 15 t in
  let t := deduct (no_contact text_content) "No contact info found" 20 t in
  let probes := count_broken w u soup log in
  let broken_images := fst probes in
  let log := snd probes in
  let t := deduct (Nat.ltb 0 broken_images)
                  (str_of_nat broken_images ++ " broken images")
                  (Z.of_nat broken_images * 5) t in
  let business_info := extract_business_info soup text_content in
  let score := snd t in
  (mkResult u (Z.max 0 score) (fst t) analyzed
            (Some (score <? 50)) (Some (score <? 30))
            (Some (get_or_empty (info_name business_info)))
            (Some (get_or_empty (info_phone business_info)))
            (Some (get_or_empty (info_email business_info)))
            (Some (strftime (now w (clock log)))),
   log).

(** [if status_code != 200: ...] *)
Definition check_status (status_code : Z) (t : Tally) : Tally :=
  deduct (negb (status_code =? 200)) ("HTTP " ++ str_of_Z status_code) 30 t.

(** What follows the connectivity test: the check of the status code,
    the parser and the checks on the parsed page.  An exception of the
    parser reaches the outer handler of [analyze_website], which returns
    the 'Analysis error' record, with the url as it is then and without
    the issues found so far. *)
Definition evaluate (w : World) (u : string) (status_code : Z) (content : string)
    (t : Tally) (log : Log) : AnalysisResult * Log :=
  let t := check_status status_code t in
  match BeautifulSoup w content with
  | Parsed soup => inspect w u soup t log
  | RaiseRejected msg => (error_result u ("Analysis error: " ++ msg), log)
  end.

(** The fallback was taken and answered. *)
Definition fell_back (w : World) (u : string) (log : Log) : bool :=
  match session_get w (clock log) u false with
  | RaiseSSLError _ =>
      match session_get w (clock (Get u :: log)) (to_http u) true with
      | Response _ _ => true
      | _ => false
      end
  | _ => false
  end.


(** [analyze_website(url)].  The outer handler of the source ('Analysis
    error') guards the steps after the fetch; of these the parser can
    raise ([evaluate]). *)
Definition analyze_website (w : World) (url0 : string) (log : Log) : AnalysisResult * Log :=
  let u := ensure_protocol url0 in
  match connect w u start log with
  | Got u status_code content t log => evaluate w u status_code content t log
  | Failed r log => (r, log)
  end.

(** [batch_analyze(urls, delay)]; the list it returns is also what it
    stores in [self.results]. *)
Definition batch_analyze (w : World) (urls : list string) (delay : Z) (log : Log)
    : list AnalysisResult * Log :=
  batch (analyze_website w) urls delay log.

End Full.

(** ** simple_analyzer.py *)

Module Simple.

(** [urllib.request.urlopen] and the decoding of the body: the text of
    the page, or one of the exceptions [fetch_url] tells apart.  A
    response whose final status is not 2xx is an [HTTPError]. *)
Inductive UrlopenOutcome : Type :=
| Content (body : string)
| HTTPError (code : Z)
| URLError (reason : string)
| OtherError (msg : string).

(** The calls [HTMLParser.feed] makes on the handlers.  An attribute
    written without a value has the value [None]. *)
Inductive ParseEvent : Type :=
| StartTag (tag : string) (attrs : list (string * option string))
| EndTag (tag : string)
| Data (data : string).

(** The collaborators: [urlopen at url], the tokenizer (the handler calls
    it makes, and the message of the exception it ends with, if any) and
    the clock. *)
Record World : Type := mkWorld {
  urlopen : nat -> string -> UrlopenOutcome;
  tokenize : string -> list ParseEvent * option string;
  now : nat -> DateTime
}.

(** The fields of [SimpleHTMLParser] *)
Record Parser : Type := mkParser {
  title : string;
  meta_tags : list (list (string * option string));
  in_title : bool;
  text_content : string
}.

Definition new_parser : Parser := mkParser EmptyString [] false EmptyString.

Definition handle_starttag (p : Parser) (tag : string) (attrs : list (string * option string))
    : Parser :=
  if String.eqb tag "title" then mkParser (title p) (meta_tags p) true (text_content p)
  else if String.eqb tag "meta"
       then mkParser (title p) (meta_tags p ++ [attrs])%list (in_title p) (text_content p)
       else p.

Definition handle_endtag (p : Parser) (tag : string) : Parser :=
  if String.eqb tag "title" then mkParser (title p) (meta_tags p) false (text_content p)
  else p.

Definition handle_data (p : Parser) (data : string) : Parser :=
  mkParser (if in_title p then title p ++ strip data else title p)
           (meta_tags p) (in_title p)
           (text_content p ++ lower data ++ " ").

Definition handle (p : Parser) (e : ParseEvent) : Parser :=
  match e with
  | StartTag tag attrs => handle_starttag p tag attrs
  | EndTag tag => handle_endtag p tag
  | Data data => handle_data p data
  end.

(** [parser.feed(response); parser.close()] *)
Definition feed (w : World) (response : string) : Parser * option string :=
  (fold_left handle (fst (tokenize w response)) new_parser, snd (tokenize w response)).

(** [fetch_url(url)]: the content, or the message of the exception it
    raises in place of the one it caught. *)
Definition fetch_url (w : World) (u : string) (log : Log) : (string + string) * Log :=
  (match urlopen w (clock log) u with
   | Content body => inl body
   | HTTPError code => inr ("HTTP " ++ str_of_Z code)
   | URLError reason => inr ("URL Error: " ++ reason)
   | OtherError msg => inr ("Connection error: " ++ msg)
   end,
   Get u :: log).

(** The loop over [meta_tags]: [meta.get('name', '').lower() == 'viewport'],
    stopping at the first hit.  [None] is the [AttributeError] of
    [.lower()] on the value [None] of a [name] written without a value. *)
Fixpoint has_viewport (metas : list (list (string * option string))) : option bool :=
  match metas with
  | [] => Some false
  | meta :: rest =>
      match dict_get "name" meta with
      | Some None => None
      | Some (Some v) => if String.eqb (lower v) "viewport" then Some true else has_viewport rest
      | None => has_viewport rest
      end
  end.

Definition attribute_error : string := "'NoneType' object has no attribute 'lower'".

Definition construction_phrases : list string :=
  [ "under construction"; "coming soon"; "website under development";
    "page under construction" ].

(** The record of the three error paths: [result] as it is when its
    status, issues and score are overwritten; its url is the argument of
    the call, and the two flags were not set yet. *)
Definition error_result (url0 issue name date : string) : AnalysisResult :=
  mkResult url0 0 [issue] error None None (Some name) (Some EmptyString)
           (Some EmptyString) (Some date).

Inductive Fetched : Type :=
| Got (final_url : string) (response : string) (t : Tally) (log : Log)
| Failed (issue : string) (log : Log).

(** [try: fetch_url(url)], and on any exception one more try over http
    when the URL starts with https. *)
Definition connect (w : World) (u : string) (t : Tally) (log : Log) : Fetched :=
  match fetch_url w u log with
  | (inl response, log) => Got u response t log
  | (inr _, log) =>
      if startswith u "https://" then
        let u := to_http u in
        match fetch_url w u log with
        | (inl response, log) => Got u response (add_issue "HTTPS not available" 20 t) log
        | (inr e, log) => Failed ("Site not accessible: " ++ e) log
        end
      else Failed "Site not accessible" log
  end.

Definition fails (o : UrlopenOutcome) : bool :=
  match o with Content _ => false | _ => true end.

(** The fallback was taken and answered. *)
Definition fell_back (w : World) (u : string) (log : Log) : bool :=
  fails (urlopen w (clock log) u) && startswith u "https://" &&
  negb (fails (urlopen w (clock (Get u :: log)) (to_http u))).

Definition found_text (m : option Re.found) : string :=
  match m with Some r => Re.group0 r | None => EmptyString end.

(** The checks on a fetched page, in the order of the source. *)
Definition evaluate (w : World) (url0 date u response : string) (t : Tally) (log : Log)
    : AnalysisResult * Log :=
  let parsed := feed w response in
  let parser := fst parsed in
  let t := match snd parsed with
           | Some e => add_issue ("HTML parsing error: " ++ e) 10 t
           | None => t
           end in
  let name := if is_empty (title parser) then EmptyString else take 100 (title parser) in
  let t := deduct (negb (startswith u "https://")) "No HTTPS" 20 t in
  match has_viewport (meta_tags parser) with
  | None => (error_result url0 ("Analysis error: " ++ attribute_error) name date, log)
  | Some viewport =>
      let t := deduct (negb viewport) "No mobile viewport" 15 t in
      let text := text_content parser in
      let current_year := year (now w (clock log)) in
      let t := check_copyright copyright_sign_twice_encoded current_year text t in
      let t := deduct (str_in "lorem ipsum" text) "Contains Lorem ipsum" 25 t in
      let t := deduct (under_construction construction_phrases text)
                      "Under construction" 30 t in
      let phone_match := Re.search phone_pattern text in
      let email_match := Re.search email_pattern text in
      let t := deduct (negb (isSome phone_match) && negb (isSome email_match))
                      "No contact info found" 20 t in
      let score := Z.max 0 (snd t) in
      (mkResult url0 score (fst t) analyzed
                (Some (score <? 50)) (Some (score <? 30))
                (Some name) (Some (found_text phone_match)) (Some (found_text email_match))
                (Some date),
       log)
  end.

(** [analyze_website(url)] *)
Definition analyze_website (w : World) (url0 : string) (log : Log) : AnalysisResult * Log :=
  let date := strftime (now w (clock log)) in
  let u := ensure_protocol url0 in
  match connect w u start log with
  | Got u response t log => evaluate w url0 date u response t log
  | Failed issue log => (error_result url0 issue EmptyString date, log)
  end.

(** [batch_analyze(urls, delay)] *)
Definition batch_analyze (w : World) (urls : list string) (delay : Z) (log : Log)
    : list AnalysisResult * Log :=
  batch (analyze_website w) urls delay log.

End Simple.

(** ** Either analyzer, with its collaborators *)

Inductive Analyzer : Type :=
| full (w : Full.World)
| simple (w : Simple.World).

Definition analyze_website (a : Analyzer) : string -> Log -> AnalysisResult * Log :=
  match a with
  | full w => Full.analyze_website w
  | simple w => Simple.analyze_website w
  end.

Definition batch_analyze (a : Analyzer) : list string -> Z -> Log -> list AnalysisResult * Log :=
  match a with
  | full w => Full.batch_analyze w
  | simple w => Simple.batch_analyze w
  end.

Definition fell_back (a : Analyzer) (url0 : string) (log : Log) : bool :=
  match a with
  | full w => Full.fell_back w (ensure_protocol url0) log
  | simple w => Simple.fell_back w (ensure_protocol url0) log
  end.

(** ** Concrete sites *)

Module Scenario.

Definition noon : DateTime := mkDateTime 2026 "2026-11-04 12:00:00".

(** A page titled Home with a charset declaration and a phone number,
    and without a viewport. *)
Definition home_page : Full.Soup :=
  Full.mkSoup
    [ Full.mkTag "meta" [("charset", "utf-8")] "";
      Full.mkTag "title" [] "Home";
      Full.mkTag "h1" [] "Acme Plumbing" ]
    "Home Acme Plumbing Call 555-123-4567".

(** A page whose text carries an old copyright notice. *)
Definition old_notice : string := copyright_sign ++ " 2016 Acme Plumbing".

Definition stale_page : Full.Soup :=
  Full.mkSoup [ Full.mkTag "p" [] old_notice ] old_notice.

Definition full_world (get : nat -> string -> bool -> Full.GetOutcome) (page : Full.Soup)
    : Full.World :=
  Full.mkWorld get (fun _ _ => Full.HeadResponse 200) (fun base src => Some (base ++ src))
               (fun _ => Full.Parsed page) (fun _ => noon).

(** Every request is answered with status [code]. *)
Definition full_serving (code : Z) (page : Full.Soup) : Full.World :=
  full_world (fun _ _ _ => Full.Response code "<html>") page.

(** No connection. *)
Definition full_refusing : Full.World :=
  full_world (fun _ _ _ => Full.RaiseOther "Connection refused") home_page.


(** The first request fails in TLS, the later ones are answered. *)
Definition full_tls_failing : Full.World :=
  full_world (fun n _ _ => match n with
                            | O => Full.RaiseSSLError "handshake failure"
                            | _ => Full.Response 200 "<html>"
                            end) home_page.

(** A page with seven images, on a site that has none of them. *)
Definition gallery_page : Full.Soup :=
  Full.mkSoup
    (Full.mkTag "title" [] "Acme Plumbing Gallery" ::
     map (fun name => Full.mkTag "img" [("src", name)] "")
         ["1.png"; "2.png"; "3.png"; "4.png"; "5.png"; "6.png"; "7.png"])
    "Acme Plumbing Gallery".

Definition full_missing_images : Full.World :=
  Full.mkWorld (fun _ _ _ => Full.Response 200 "<html>")
               (fun _ _ => Full.HeadResponse 404) (fun base src => Some (base ++ "/" ++ src))
               (fun _ => Full.Parsed gallery_page) (fun _ => noon).

(** Every request is answered with status [code], with markup the
    parser rejects. *)
Definition full_unparsable (code : Z) : Full.World :=
  Full.mkWorld (fun _ _ _ => Full.Response code "<html")
               (fun _ _ => Full.HeadResponse 200) (fun base src => Some (base ++ src))
               (fun _ => Full.RaiseRejected "malformed start tag") (fun _ => noon).

Definition home_events : list Simple.ParseEvent :=
  [ Simple.StartTag "meta" [("charset", Some "utf-8")];
    Simple.StartTag "title" []; Simple.Data "Home"; Simple.EndTag "title";
    Simple.StartTag "h1" []; Simple.Data "Acme Plumbing"; Simple.EndTag "h1";
    Simple.Data "Call 555-123-4567" ].

Definition stale_events : list Simple.ParseEvent :=
  [ Simple.StartTag "p" []; Simple.Data old_notice; Simple.EndTag "p" ].

(** A page that gives an e-mail address, in capitals. *)
Definition mail_events : list Simple.ParseEvent :=
  [ Simple.StartTag "title" []; Simple.Data "  Acme Plumbing  "; Simple.EndTag "title";
    Simple.Data "Write to INFO@ACME.COM - LOREM IPSUM" ].

(** A [name] attribute written without a value. *)
Definition valueless_events : list Simple.ParseEvent :=
  [ Simple.StartTag "meta" [("name", None)]; Simple.Data "Acme Plumbing" ].

Definition simple_world (opener : nat -> string -> Simple.UrlopenOutcome)
    (events : list Simple.ParseEvent) : Simple.World :=
  Simple.mkWorld opener (fun _ => (events, None)) (fun _ => noon).

Definition simple_serving (events : list Simple.ParseEvent) : Simple.World :=
  simple_world (fun _ _ => Simple.Content "<html>") events.

(** Every request is answered with status 404. *)
Definition simple_not_found : Simple.World :=
  simple_world (fun _ _ => Simple.HTTPError 404) home_events.

(** The first request fails, the later ones are answered. *)
Definition simple_http_only (events : list Simple.ParseEvent) : Simple.World :=
  simple_world (fun n _ => match n with
                            | O => Simple.URLError "handshake failure"
                            | _ => Simple.Content "<html>"
                            end) events.

End Scenario.

(** ** Summary, export and display of a list of records *)

Module Report.

(** [sep.join(l)] *)
Fixpoint join (sep : string) (l : list string) : string :=
  match l with
  | [] => EmptyString
  | [x] => x
  | x :: rest => x ++ sep ++ join sep rest
  end.

Definition is_analyzed (r : AnalysisResult) : bool :=
  match status r with analyzed => true | error => false end.

Definition is_error (r : AnalysisResult) : bool := negb (is_analyzed r).

Definition count_hot_leads (results : list AnalysisResult) : nat :=
  List.length (filter (fun r => get_flag (is_hot_lead r)) results).
Definition count_needs_redesign (results : list AnalysisResult) : nat :=
  List.length (filter (fun r => get_flag (needs_redesign r)) results).










(** The three headings of [format_results] *)
Inductive Label : Type := HotLead | GoodProspect | Unlikely.

(** What [format_results] shows of one record: the heading, the name,
    the score and the url, and the lines for phone, e-mail and issues
    when there is something to show. *)
Record Entry : Type := mkEntry {
  label : Label;
  shown_name : string;
  shown_score : Z;
  shown_url : string;
  phone_line : option string;
  email_line : option string;
  issues_line : option string
}.

Definition truthy (s : string) : option string :=
  if is_empty s then None else Some s.

(** One turn of the loop of [format_results]; [None] is the [KeyError]
    of [result['business_name']], [result['phone']] or [result['email']]
    on a record without the key. *)
Definition entry (r : AnalysisResult) : option Entry :=
  match business_name r, phone r, email r with
  | Some name, Some p, Some e =>
      let score := quality_score r in
      Some (mkEntry (if score <? 30 then HotLead
                     else if score <? 50 then GoodProspect else Unlikely)
                    (if is_empty name then "Unknown Business" else name)
                    score (url r) (truthy p) (truthy e)
                    (match issues r with
                     | [] => None
                     | l => Some (join ", " (firstn 3 l))
                     end))
  | _, _, _ => None
  end.

Fixpoint entries (results : list AnalysisResult) : option (list Entry) :=
  match results with
  | [] => Some []
  | r :: rest =>
      match entry r, entries rest with
      | Some e, Some es => Some (e :: es)
      | _, _ => None
      end
  end.

Definition is_hot (e : Entry) : bool :=
  match label e with HotLead => true | _ => false end.
Definition is_good (e : Entry) : bool :=
  match label e with GoodProspect => true | _ => false end.

(** A record the report can show, and under which heading it does. *)
Definition displayable (r : AnalysisResult) : Prop :=
  exists e,
    entry r = Some e /\
    (is_hot e = true <-> get_flag (is_hot_lead r) = true \/ is_error r = true) /\
    (is_good e = true <->
     get_flag (needs_redesign r) = true /\ get_flag (is_hot_lead r) = false) /\
    (is_error r = true -> get_flag (is_hot_lead r) = false).

(** The report of [format_results]: the fixed message for no results, or
    the entries with the two counts of its summary. *)
Inductive Display : Type :=
| NoResults
| Shown (shown : list Entry) (hot good : nat).

(** [format_results(results, filename)], without the wording of its
    lines; [None] when it raises. *)
Definition format_results (results : list AnalysisResult) : option Display :=
  match results with
  | [] => Some NoResults
  | _ =>
      match entries results with
      | Some es => Some (Shown es (List.length (filter is_hot es))
                                  (List.length (filter is_good es)))
      | None => None
      end
  end.

(** A listed issue costs at least five points. *)
Definition costly (t : Tally) : Prop := Forall (fun x => 5 <= deduction_of x) (fst t).

(** What the summaries rely on in a record: a hot lead needs a redesign,
    only a completed analysis sets a flag, an error scores 0, and every
    score lies between 0 and 100. *)
Definition sound (r : AnalysisResult) : Prop :=
  (get_flag (is_hot_lead r) = true -> get_flag (needs_redesign r) = true) /\
  (get_flag (needs_redesign r) = true -> status r = analyzed) /\
  (status r = error -> quality_score r = 0) /\
  0 <= quality_score r <= 100.

(** The number of [time.sleep] calls in a log and of requests for
    images. *)
Definition sleeps (log : Log) : list Z :=
  flat_map (fun e => match e with Sleep d => [d] | _ => [] end) (rev log).

Definition heads (log : Log) : list string :=
  flat_map (fun e => match e with Head u => [u] | _ => [] end) (rev log).




(** The place, in the order of the checks of [analyze_website], of the
    check that appends an issue: 0 for the fallback, 1 for the status
    code (in the simple analyzer, the parsing error), ..., 11 for the
    broken images; 12 for a string no check appends. *)
Definition check_of (issue : string) : nat :=
  match broken_count issue with
  | Some _ => 11
  | None =>
      if String.eqb issue "HTTPS not available" then 0
      else if startswith issue "HTTP " || startswith issue "HTML parsing error: " then 1
      else if String.eqb issue "No HTTPS" then 2
      else if String.eqb issue "No mobile viewport" then 3
      else if startswith issue "Outdated copyright: " then 4
      else if String.eqb issue "Contains Lorem ipsum" then 5
      else if String.eqb issue "Under construction" then 6
      else if String.eqb issue "Uses Flash/embedded objects" then 7
      else if String.eqb issue "No charset declaration" then 8
      else if String.eqb issue "Poor/missing page title" then 9
      else if String.eqb issue "No contact info found" then 10
      else 12
  end%nat.

(** Every issue of the list comes from an earlier check than the issues
    after it. *)
Definition in_order (l : list string) : Prop :=
  StronglySorted (fun x y => (check_of x < check_of y)%nat) l.

(** The issues appended so far are in order and come from the checks
    before the [k]-th. *)
Definition upto (k : nat) (t : Tally) : Prop :=
  in_order (fst t) /\ Forall (fun x => (check_of x < k)%nat) (fst t).

End Report.

(** ** command_interface.py and the reading of URL files *)

Module Command.

(** [https?://[^\s]+] *)
Definition url_pattern : Re.pattern :=
  [ Re.one (Re.is_char "h"); Re.one (Re.is_char "t"); Re.one (Re.is_char "t");
    Re.one (Re.is_char "p"); Re.optional (Re.is_char "s"); Re.one (Re.is_char ":");
    Re.one (Re.is_char "/"); Re.one (Re.is_char "/");
    Re.at_least 1 (fun c => negb (is_space c)) ].

(** [[a-zA-Z0-9-]] *)
Definition cls_label (c : ascii) : bool :=
  Re.is_alpha c || Re.is_digit c || Re.is_char "-" c.

(** [\b[a-zA-Z0-9-]+\.[a-zA-Z]{2,}\b] *)
Definition domain_pattern : Re.pattern :=
  [ Re.WordBoundary; Re.at_least 1 cls_label; Re.one (Re.is_char ".");
    Re.at_least 2 Re.is_alpha; Re.WordBoundary ].

(** [any(domain in url for url in urls)] *)
Definition covered (domain : string) (urls : list string) : bool :=
  existsb (fun u => str_in domain u) urls.

(** One turn of [for domain in domains], on the list it appends to. *)
Definition add_domain (urls : list string) (domain : string) : list string :=
  if covered domain urls then urls else (urls ++ [("https://" ++ domain)%string])%list.

(** [extract_urls(text)] *)
Definition extract_urls (text : string) : list string :=
  fold_left add_domain (Re.findall domain_pattern text) (Re.findall url_pattern text).

(** The service [handle_search_command(command)] recommends searches
    for: the first of its tests that the command passes. *)
Definition service_type (command : string) : string :=
  if str_in "hvac" command then "HVAC"
  else if str_in "plumbing" command || str_in "plumber" command then "plumbing"
  else if str_in "landscaping" command || str_in "lawn care" command then "landscaping"
  else if str_in "contractor" command then "contractor"
  else EmptyString.

(** The place it recommends them for. *)
Definition location (command : string) : string :=
  if str_in "spartanburg" command then "Spartanburg SC"
  else if str_in "anderson" command then "Anderson SC"
  else "Greenville SC".

(** The three outcomes of [process_command]: the URLs it has analysed,
    the service and the place of the searches [handle_search_command]
    recommends, or the help text. *)
Inductive Action : Type :=
| Analyze (urls : list string)
| Search (service place : string)
| Help.

Definition search_terms : list string := [ "hvac"; "plumbing"; "landscaping"; "contractor" ].

(** [process_command(command_text)], up to the call it ends with. *)
Definition process_command (command_text : string) : Action :=
  let command_text := lower (strip command_text) in
  match extract_urls command_text with
  | [] => if existsb (fun term => str_in term command_text) search_terms
          then Search (service_type command_text) (location command_text)
          else Help
  | urls => Analyze urls
  end.

(** [[line.strip() for line in f if line.strip() and not line.startswith('#')]],
    the URL file of [simple_analyzer.main] *)
Definition read_urls_simple (lines : list string) : list string :=
  map strip (filter (fun line => negb (is_empty (strip line)) &&
                                 negb (startswith line "#")) lines).

(** [[line.strip() for line in f if line.strip()]], the URL file of
    [business_analyzer.main] *)
Definition read_urls_full (lines : list string) : list string :=
  map strip (filter (fun line => negb (is_empty (strip line))) lines).

End Command.

(** * Properties *)

(** ** The operations on concrete inputs *)

Example replace_every_occurrence :
  replace "https://a.com/?u=https://b.org" "https://" "http://"
  = "http://a.com/?u=http://b.org".
Proof. reflexivity. Qed.

Example lower_and_strip :
  lower "Under Construction" = "under construction" /\ strip "  Home  " = "Home".
Proof. split; reflexivity. Qed.

Example str_of_numbers : str_of_Z 404 = "404" /\ str_of_nat 3 = "3".
Proof. split; reflexivity. Qed.

Example phone_found :
  option_map Re.group0 (Re.search phone_pattern "call 555-123-4567 now")
  = Some "555-123-4567".
Proof. reflexivity. Qed.

Example phone_inside_a_number_not_found :
  Re.search phone_pattern "id 15551234567" = None.
Proof. reflexivity. Qed.

Example email_found_after_backtracking :
  option_map Re.group_1 (Re.search Full.email_group_pattern "mail bob@acme.co.uk.")
  = Some "bob@acme.co.uk".
Proof. reflexivity. Qed.

Example findall_two_phones :
  Re.findall phone_pattern "555-123-4567 or 5551234568" = ["555-123-4567"; "5551234568"].
Proof. reflexivity. Qed.

Example points_of_issues :
  map deduction_of ["HTTP 404"; "Outdated copyright: 2016"; "3 broken images";
                    "HTTPS not available"; "No charset declaration"]
  = [30; 10; 15; 20; 5].
Proof. reflexivity. Qed.

Example parser_collects_title_and_text :
  let p := fold_left Simple.handle Scenario.home_events Simple.new_parser in
  Simple.title p = "Home" /\
  Simple.text_content p = "home acme plumbing call 555-123-4567 " /\
  Simple.has_viewport (Simple.meta_tags p) = Some false.
Proof. repeat split; reflexivity. Qed.

(** ** Strings *)

Lemma prefix_cons (a b : ascii) (p s : string) :
  prefix (String a p) (String b s) = true -> a = b /\ prefix p s = true.
Proof.
  simpl. destruct (ascii_dec a b) as [->|]; [auto | discriminate].
Qed.

Lemma prefix_empty (s : string) : prefix EmptyString s = true.
Proof. destruct s; reflexivity. Qed.

Ltac peel H :=
  repeat match type of H with
  | prefix (String _ _) ?s = true =>
      destruct s; [discriminate H |];
      apply prefix_cons in H; destruct H as [<- H]
  end.

Lemma https_shape (u : string) :
  startswith u "https://" = true -> exists rest, u = "https://" ++ rest.
Proof.
  unfold startswith. intros H. peel H. eexists. reflexivity.
Qed.

Lemma http_shape (u : string) :
  startswith u "http://" = true -> exists rest, u = "http://" ++ rest.
Proof.
  unfold startswith. intros H. peel H. eexists. reflexivity.
Qed.

(** The fallback turns an [https://] URL into an [http://] one. *)
Lemma to_http_of_https (u : string) :
  startswith u "https://" = true ->
  startswith (to_http u) "http://" = true /\ startswith (to_http u) "https://" = false.
Proof.
  intros H. destruct (https_shape u H) as [rest ->].
  unfold startswith, to_http, replace. cbn. rewrite prefix_empty. cbn.
  split; [apply prefix_empty | reflexivity].
Qed.

(** It leaves the scheme of an [http://] URL as it is. *)
Lemma to_http_of_http (u : string) :
  startswith u "http://" = true ->
  startswith (to_http u) "http://" = true /\ startswith (to_http u) "https://" = false.
Proof.
  intros H. destruct (http_shape u H) as [rest ->].
  unfold startswith, to_http, replace. cbn.
  split; [apply prefix_empty | reflexivity].
Qed.

Lemma ensure_protocol_scheme (u : string) :
  startswith (ensure_protocol u) "http://" = true \/
  startswith (ensure_protocol u) "https://" = true.
Proof.
  unfold ensure_protocol.
  destruct (startswith u "http://") eqn:E1; simpl.
  - left. exact E1.
  - destruct (startswith u "https://") eqn:E2.
    + right. exact E2.
    + right. unfold startswith. cbn. apply prefix_empty.
Qed.

Lemma to_http_never_https (u : string) :
  startswith (to_http (ensure_protocol u)) "http://" = true /\
  startswith (to_http (ensure_protocol u)) "https://" = false.
Proof.
  destruct (ensure_protocol_scheme u) as [H | H].
  - now apply to_http_of_http.
  - now apply to_http_of_https.
Qed.

Lemma take_all (s : string) : take (String.length s) s = s.
Proof.
  unfold take. induction s as [| c s IH]; simpl; [reflexivity | now rewrite IH].
Qed.

(** ** Matching *)

Section RepLemmas.

Variable cls : ascii -> bool.

(** What holds of every result of the continuation and survives a
    character in front holds of every result of the repetition. *)
Lemma rep_preserves (P : Re.found -> Prop) (k : option ascii -> string -> option Re.found) :
  (forall c r, P r -> P (Re.push c r)) ->
  (forall prev s r, k prev s = Some r -> P r) ->
  forall s lo hi prev r, Re.rep cls k lo hi prev s = Some r -> P r.
Proof.
  intros Hpush Hk. induction s as [| c s IH]; intros lo hi prev r H; simpl in H.
  - destruct lo; [eauto | discriminate].
  - destruct (cls c && Re.may_repeat hi).
    + destruct (Re.rep cls k (Nat.pred lo) (option_map Nat.pred hi) (Some c) s) eqn:E.
      * injection H as <-. eauto.
      * destruct lo; [eauto | discriminate].
    + destruct lo; [eauto | discriminate].
Qed.

(** A repetition consumes at least its lower bound. *)
Lemma rep_min (k : option ascii -> string -> option Re.found) (n : nat) :
  (forall prev s r, k prev s = Some r -> (n <= String.length (Re.text r))%nat) ->
  forall s lo hi prev r,
    Re.rep cls k lo hi prev s = Some r -> (lo + n <= String.length (Re.text r))%nat.
Proof.
  intros Hk. induction s as [| c s IH]; intros lo hi prev r H; simpl in H.
  - destruct lo; [simpl; eauto | discriminate].
  - destruct (cls c && Re.may_repeat hi).
    + destruct (Re.rep cls k (Nat.pred lo) (option_map Nat.pred hi) (Some c) s) eqn:E.
      * injection H as <-. apply IH in E. simpl. lia.
      * destruct lo; [simpl; eauto | discriminate].
    + destruct lo; [simpl; eauto | discriminate].
Qed.


End RepLemmas.

Lemma match_here_min (p : Re.pattern) :
  forall prev s r,
    Re.match_here p prev s = Some r -> (Re.min_len p <= String.length (Re.text r))%nat.
Proof.
  induction p as [| i p IH]; intros prev s r H.
  - simpl in *. lia.
  - destruct i as [cls lo hi | | |]; simpl in H |- *.
    + eapply rep_min; eauto.
    + destruct (xorb _ _); [eauto | discriminate].
    + destruct (Re.match_here p prev s) eqn:E; [| discriminate].
      injection H as <-. simpl. eauto.
    + destruct (Re.match_here p prev s) eqn:E; [| discriminate].
      injection H as <-. simpl. eauto.
Qed.


Lemma search_from_match (p : Re.pattern) :
  forall s prev prev0 s0 r,
    Re.search_from p prev s = Some (prev0, s0, r) -> Re.match_here p prev0 s0 = Some r.
Proof.
  induction s as [| c s IH]; intros prev prev0 s0 r H; simpl in H.
  - destruct (Re.match_here p prev EmptyString) eqn:E; [| discriminate].
    injection H as <- <- <-. exact E.
  - destruct (Re.match_here p prev (String c s)) eqn:E.
    + injection H as <- <- <-. exact E.
    + eauto.
Qed.



(** A match has at least the characters the pattern asks for. *)
Lemma search_min (p : Re.pattern) (s : string) (r : Re.found) :
  Re.search p s = Some r -> (Re.min_len p <= String.length (Re.text r))%nat.
Proof.
  unfold Re.search. destruct (Re.search_from p None s) as [[[prev0 s0] r0] |] eqn:E;
    [| discriminate].
  simpl. intros [= <-]. eapply match_here_min, search_from_match, E.
Qed.


Lemma closes_at_end_push (c : ascii) (r : Re.found) :
  Re.closes_at_end r -> Re.closes_at_end (Re.push c r).
Proof.
  intros [H1 H2]. split; simpl; [now rewrite H1 | exact H2].
Qed.

Lemma match_body_closes (body : Re.pattern) :
  forallb (fun i => negb (Re.is_paren i)) body = true ->
  forall prev s r,
    Re.match_here (body ++ [Re.GroupClose; Re.WordBoundary])%list prev s = Some r ->
    Re.closes_at_end r.
Proof.
  induction body as [| i body IH]; intros Hb prev s r H.
  - simpl in H. destruct (xorb _ _); [| discriminate].
    injection H as <-. split; reflexivity.
  - simpl in Hb. apply andb_prop in Hb as [Hi Hb].
    destruct i as [cls lo hi | | |]; try discriminate; simpl in H.
    + eapply rep_preserves; eauto using closes_at_end_push.
    + destruct (xorb _ _); [eauto | discriminate].
Qed.

(** The group between the two [\b] is the whole match. *)
Lemma group_is_match (body : Re.pattern) (s : string) (r : Re.found) :
  forallb (fun i => negb (Re.is_paren i)) body = true ->
  Re.search ([Re.WordBoundary; Re.GroupOpen] ++ body ++ [Re.GroupClose; Re.WordBoundary])%list s
    = Some r ->
  Re.group_1 r = Re.text r.
Proof.
  intros Hb. unfold Re.search.
  destruct (Re.search_from _ None s) as [[[prev0 s0] r0] |] eqn:E; [| discriminate].
  simpl. intros [= <-]. apply search_from_match in E. simpl in E.
  destruct (xorb _ _); [| discriminate].
  destruct (Re.match_here _ prev0 s0) as [r1 |] eqn:E1; [| discriminate].
  injection E as <-. apply match_body_closes in E1 as [H1 H2]; [| exact Hb].
  unfold Re.group_1, Re.open_here. simpl. rewrite H1. simpl. apply take_all.
Qed.

(** ** The points of an issue string *)

Lemma split_digits (d : Decimal.uint) (rest : string) :
  split_at_space (NilEmpty.string_of_uint d ++ String " " rest)
  = (NilEmpty.string_of_uint d, String " " rest).
Proof.
  induction d; simpl; try rewrite IHd; reflexivity.
Qed.

Lemma deduction_of_broken (n : nat) :
  deduction_of (str_of_nat n ++ " broken images") = 5 * Z.of_nat n.
Proof.
  unfold deduction_of, broken_count, str_of_nat.
  change " broken images" with (String " " "broken images").
  rewrite split_digits. simpl fst. simpl snd.
  rewrite NilEmpty.usu. simpl. now rewrite Unsigned.of_to.
Qed.

Lemma deduction_of_http (s : string) : deduction_of ("HTTP " ++ s) = 30.
Proof. unfold deduction_of, startswith. cbn. now rewrite prefix_empty. Qed.

Lemma deduction_of_copyright (s : string) : deduction_of ("Outdated copyright: " ++ s) = 10.
Proof. unfold deduction_of, startswith. cbn. now rewrite prefix_empty. Qed.

Lemma deduction_of_parsing (s : string) : deduction_of ("HTML parsing error: " ++ s) = 10.
Proof. unfold deduction_of, startswith. cbn. now rewrite prefix_empty. Qed.

Lemma total_deductions_app (l : list string) (issue : string) :
  total_deductions (l ++ [issue]) = total_deductions l + deduction_of issue.
Proof.
  unfold total_deductions. induction l as [| x l IH]; simpl; [lia |].
  fold (total_deductions (l ++ [issue])) in *. fold (total_deductions l) in *. lia.
Qed.

(** The invariant of the running score, kept by every check. *)
Lemma explained_start : explained start.
Proof. split; [reflexivity | simpl; lia]. Qed.

Lemma explained_add (issue : string) (points : Z) (t : Tally) :
  deduction_of issue = points -> 0 <= points ->
  explained t -> explained (add_issue issue points t).
Proof.
  intros Hd Hp [H1 H2]. unfold explained, add_issue. cbn [fst snd].
  rewrite total_deductions_app. lia.
Qed.

Lemma explained_deduct (c : bool) (issue : string) (points : Z) (t : Tally) :
  deduction_of issue = points -> 0 <= points ->
  explained t -> explained (deduct c issue points t).
Proof.
  intros. unfold deduct. destruct c; [now apply explained_add | assumption].
Qed.

Lemma explained_copyright (sign : string) (cy : Z) (text : string) (t : Tally) :
  explained t -> explained (check_copyright sign cy text t).
Proof.
  intros. unfold check_copyright. destruct (outdated_copyright sign cy text).
  - apply explained_add; [apply deduction_of_copyright | lia | assumption].
  - assumption.
Qed.

Lemma explained_clamped (t : Tally) :
  explained t ->
  Z.max 0 (snd t) = Z.max 0 (100 - total_deductions (fst t)) /\ 0 <= Z.max 0 (snd t) <= 100.
Proof. intros [H1 H2]. rewrite <- H1. lia. Qed.

Ltac explain :=
  repeat first
    [ assumption
    | apply explained_start
    | apply explained_copyright
    | apply explained_deduct; [first [reflexivity | apply deduction_of_http] | lia |]
    | apply explained_add; [first [reflexivity | apply deduction_of_parsing] | lia |] ].

Lemma full_connect_explained (w : Full.World) (u : string) (log : Log)
    (u' : string) (code : Z) (content : string) (t : Tally) (log' : Log) :
  Full.connect w u start log = Full.Got u' code content t log' -> explained t.
Proof.
  unfold Full.connect. destruct (Full.session_get w (clock log) u false).
  - intros [= <- <- <- <- <-]. explain.
  - destruct (Full.session_get w _ _ true); try discriminate.
    intros [= <- <- <- <- <-]. explain.
  - discriminate.
Qed.

(** A page the parser accepts goes through the checks; the others end in
    the 'Analysis error' record. *)
Lemma full_evaluate_parsed (w : Full.World) (u : string) (code : Z) (content : string)
    (t : Tally) (log : Log) (soup : Full.Soup) :
  Full.BeautifulSoup w content = Full.Parsed soup ->
  Full.evaluate w u code content t log
  = Full.inspect w u soup (Full.check_status code t) log.
Proof. unfold Full.evaluate. now intros ->. Qed.

Lemma full_evaluate_analyzed (w : Full.World) (u : string) (code : Z) (content : string)
    (t : Tally) (log : Log) :
  status (fst (Full.evaluate w u code content t log)) = analyzed ->
  exists soup, Full.BeautifulSoup w content = Full.Parsed soup.
Proof.
  unfold Full.evaluate. destruct (Full.BeautifulSoup w content) as [soup | msg];
    [eauto | discriminate].
Qed.

Lemma full_inspect_analyzed (w : Full.World) (u : string) (soup : Full.Soup)
    (t : Tally) (log : Log) :
  status (fst (Full.inspect w u soup t log)) = analyzed.
Proof. reflexivity. Qed.

Lemma full_evaluate_explained (w : Full.World) (u : string) (code : Z) (content : string)
    (t : Tally) (log : Log) :
  explained t ->
  status (fst (Full.evaluate w u code content t log)) = analyzed ->
  score_explained (fst (Full.evaluate w u code content t log)).
Proof.
  intros H. unfold Full.evaluate, Full.check_status.
  destruct (Full.BeautifulSoup w content) as [soup | msg]; [| discriminate].
  intros _. unfold Full.inspect, score_explained. cbn [fst quality_score issues].
  apply explained_clamped.
  apply explained_deduct; [rewrite deduction_of_broken; lia | lia |].
  explain.
Qed.

Lemma simple_connect_explained (w : Simple.World) (u : string) (log : Log)
    (u' response : string) (t : Tally) (log' : Log) :
  Simple.connect w u start log = Simple.Got u' response t log' -> explained t.
Proof.
  unfold Simple.connect, Simple.fetch_url.
  destruct (Simple.urlopen w (clock log) u).
  - intros [= <- <- <- <-]. explain.
  - destruct (startswith u "https://"); [| discriminate].
    destruct (Simple.urlopen w _ _); try discriminate. intros [= <- <- <- <-]. explain.
  - destruct (startswith u "https://"); [| discriminate].
    destruct (Simple.urlopen w _ _); try discriminate. intros [= <- <- <- <-]. explain.
  - destruct (startswith u "https://"); [| discriminate].
    destruct (Simple.urlopen w _ _); try discriminate. intros [= <- <- <- <-]. explain.
Qed.

Lemma simple_evaluate_explained (w : Simple.World) (url0 date u response : string)
    (t : Tally) (log : Log) :
  explained t ->
  status (fst (Simple.evaluate w url0 date u response t log)) = analyzed ->
  score_explained (fst (Simple.evaluate w url0 date u response t log)).
Proof.
  intros H. unfold Simple.evaluate.
  destruct (Simple.has_viewport _); [| discriminate].
  intros _. unfold score_explained. cbn [fst quality_score issues].
  apply explained_clamped.
  destruct (snd (Simple.feed w response)); explain.
Qed.

Lemma full_connect_failed (w : Full.World) (u : string) (t : Tally) (log : Log)
    (r : AnalysisResult) (log' : Log) :
  Full.connect w u t log = Full.Failed r log' ->
  exists u' issue, r = Full.error_result u' issue.
Proof.
  unfold Full.connect. destruct (Full.session_get w (clock log) u false).
  - discriminate.
  - destruct (Full.session_get w _ _ true); try discriminate;
      intros [= <- <-]; eauto.
  - intros [= <- <-]. eauto.
Qed.

(** ** C1: the score and the issues *)

Lemma analyzed_score_explained (a : Analyzer) (url0 : string) (log : Log) :
  status (fst (analyze_website a url0 log)) = analyzed ->
  score_explained (fst (analyze_website a url0 log)).
Proof.
  destruct a as [w | w]; simpl.
  - unfold Full.analyze_website.
    destruct (Full.connect w (ensure_protocol url0) start log) eqn:E.
    + apply full_evaluate_explained. eapply full_connect_explained, E.
    + apply full_connect_failed in E as (u' & issue & ->). discriminate.
  - unfold Simple.analyze_website.
    destruct (Simple.connect w (ensure_protocol url0) start log) eqn:E.
    + apply simple_evaluate_explained. eapply simple_connect_explained, E.
    + discriminate.
Qed.

(** C1. For every record with status 'analyzed', of either analyzer, the
    recorded score is max(0, 100 - the sum of the points of the issue
    strings in its issues list), and so lies between 0 and 100. *)
Theorem score_is_explained_by_issues (a : Analyzer) (url0 : string) (log : Log) :
  status (fst (analyze_website a url0 log)) = analyzed ->
  score_explained (fst (analyze_website a url0 log)).
Proof. apply analyzed_score_explained. Qed.

Lemma score_is_explained_by_issues_witness :
  let r := fst (analyze_website (full (Scenario.full_serving 200 Scenario.home_page))
                                "http://example.com" []) in
  status r = analyzed /\ score_explained r.
Proof.
  split; [reflexivity |].
  apply (score_is_explained_by_issues
           (full (Scenario.full_serving 200 Scenario.home_page)) "http://example.com" []).
  reflexivity.
Defined.

(** ** C2, C6: the flags and the shape of the records *)

Lemma clamp_ltb (score bound : Z) :
  0 < bound -> (Z.max 0 score <? bound) = (score <? bound).
Proof.
  intros H. destruct (Z.ltb_spec score bound), (Z.ltb_spec (Z.max 0 score) bound);
    (reflexivity || lia).
Qed.

(** What a record of either status holds: the two flags computed from
    the score and all six further keys, or score 0 and one issue. *)
Lemma full_record (w : Full.World) (url0 : string) (log : Log) :
  let r := fst (Full.analyze_website w url0 log) in
  match status r with
  | analyzed =>
      needs_redesign r = Some (quality_score r <? 50) /\
      is_hot_lead r = Some (quality_score r <? 30) /\
      optional_keys r = [true; true; true; true; true; true]
  | error =>
      quality_score r = 0 /\ (exists diagnostic, issues r = [diagnostic]) /\
      optional_keys r = [false; false; false; false; false; false]
  end.
Proof.
  unfold Full.analyze_website.
  destruct (Full.connect w (ensure_protocol url0) start log) eqn:E.
  - unfold Full.evaluate. destruct (Full.BeautifulSoup w content); [| cbn; eauto].
    cbn. rewrite !clamp_ltb by lia. auto.
  - apply full_connect_failed in E as (u' & issue & ->). cbn. eauto.
Qed.

Lemma simple_record (w : Simple.World) (url0 : string) (log : Log) :
  let r := fst (Simple.analyze_website w url0 log) in
  match status r with
  | analyzed =>
      needs_redesign r = Some (quality_score r <? 50) /\
      is_hot_lead r = Some (quality_score r <? 30) /\
      optional_keys r = [true; true; true; true; true; true]
  | error =>
      quality_score r = 0 /\ (exists diagnostic, issues r = [diagnostic]) /\
      optional_keys r = [false; false; true; true; true; true]
  end.
Proof.
  unfold Simple.analyze_website.
  destruct (Simple.connect w (ensure_protocol url0) start log) eqn:E.
  - unfold Simple.evaluate. destruct (Simple.has_viewport _); cbn; eauto.
  - cbn. eauto.
Qed.

(** C2, as the code has it. For every record with status 'analyzed', of
    either analyzer, needs_redesign is (quality_score < 50) and
    is_hot_lead is (quality_score < 30) on the recorded, clamped score;
    a record with status 'error' has neither key; read with the default
    False, is_hot_lead implies needs_redesign for every record. *)
Theorem flags_follow_score (a : Analyzer) (url0 : string) (log : Log) :
  let r := fst (analyze_website a url0 log) in
  (status r = analyzed ->
   needs_redesign r = Some (quality_score r <? 50) /\
   is_hot_lead r = Some (quality_score r <? 30)) /\
  (status r = error -> needs_redesign r = None /\ is_hot_lead r = None) /\
  (get_flag (is_hot_lead r) = true -> get_flag (needs_redesign r) = true).
Proof.
  intros r.
  assert (H : match status r with
              | analyzed =>
                  needs_redesign r = Some (quality_score r <? 50) /\
                  is_hot_lead r = Some (quality_score r <? 30)
              | error => needs_redesign r = None /\ is_hot_lead r = None
              end).
  { subst r. destruct a as [w | w]; simpl.
    - pose proof (full_record w url0 log) as H. cbv zeta in H.
      destruct (status _); [tauto |].
      destruct H as (_ & _ & [= H1 H2 _ _ _ _]). unfold isSome in H1, H2.
      split; [destruct (needs_redesign _) | destruct (is_hot_lead _)];
        (reflexivity || discriminate).
    - pose proof (simple_record w url0 log) as H. cbv zeta in H.
      destruct (status _); [tauto |].
      destruct H as (_ & _ & [= H1 H2]). unfold isSome in H1, H2.
      split; [destruct (needs_redesign _) | destruct (is_hot_lead _)];
        (reflexivity || discriminate). }
  destruct (status r); destruct H as [H1 H2].
  - split; [auto | split; [discriminate |]].
    rewrite H1, H2. simpl.
    intros Hh. apply Z.ltb_lt in Hh. apply Z.ltb_lt. lia.
  - split; [discriminate | split; [auto |]].
    rewrite H2. discriminate.
Qed.

Lemma flags_follow_score_witness :
  let r := fst (analyze_website (simple (Scenario.simple_http_only Scenario.home_events))
                                "https://example.com" []) in
  status r = analyzed /\
  needs_redesign r = Some (quality_score r <? 50) /\
  is_hot_lead r = Some (quality_score r <? 30).
Proof.
  split; [reflexivity |].
  apply (flags_follow_score (simple (Scenario.simple_http_only Scenario.home_events))
                            "https://example.com" []).
  reflexivity.
Defined.

(** C2 as stated fails on an error record: its score is 0 and it has
    neither flag. *)
Lemma error_record_has_no_flags :
  let r := fst (analyze_website (full Scenario.full_refusing) "https://example.com" []) in
  status r = error /\ quality_score r = 0 /\
  needs_redesign r <> Some (quality_score r <? 50) /\
  is_hot_lead r <> Some (quality_score r <? 30).
Proof. cbv. repeat split; discriminate. Qed.

(** C6, as the code has it. Every record with status 'error' has score 0
    and exactly one issue; beyond url, quality_score, issues and status,
    the record of the simple analyzer has business_name, phone, email and
    analysis_date but not the two flags, and the record of the full
    analyzer has none of the six. *)
Theorem error_record_shape (a : Analyzer) (url0 : string) (log : Log) :
  let r := fst (analyze_website a url0 log) in
  status r = error ->
  quality_score r = 0 /\
  (exists diagnostic, issues r = [diagnostic]) /\
  optional_keys r =
    match a with
    | full _ => [false; false; false; false; false; false]
    | simple _ => [false; false; true; true; true; true]
    end.
Proof.
  destruct a as [w | w]; simpl; intros H.
  - pose proof (full_record w url0 log) as R. cbv zeta in R.
    rewrite H in R. exact R.
  - pose proof (simple_record w url0 log) as R. cbv zeta in R.
    rewrite H in R. exact R.
Qed.

Lemma error_record_shape_witness :
  let r := fst (analyze_website (simple Scenario.simple_not_found) "example.com" []) in
  status r = error /\ quality_score r = 0 /\
  (exists diagnostic, issues r = [diagnostic]) /\
  optional_keys r = [false; false; true; true; true; true].
Proof.
  split; [reflexivity |].
  apply (error_record_shape (simple Scenario.simple_not_found) "example.com" []).
  reflexivity.
Defined.

(** C6 as stated fails: the error record of the full analyzer lacks the
    six keys a successful record has. *)
Lemma error_record_lacks_fields :
  let failed := fst (analyze_website (full Scenario.full_refusing) "https://example.com" []) in
  let done := fst (analyze_website (full (Scenario.full_serving 200 Scenario.home_page))
                                   "https://example.com" []) in
  status failed = error /\ status done = analyzed /\
  optional_keys failed <> optional_keys done /\
  needs_redesign failed = None /\ business_name failed = None /\ analysis_date failed = None.
Proof. cbv. repeat split; discriminate. Qed.

(** ** C3: the page titled Home, served over http only *)

(** C3, as the code has it. For a page fetched over http:// (status
    200), without a viewport meta tag, with the title 'Home' and with no
    other check triggered, the full analyzer lists 'No HTTPS', 'No mobile
    viewport' and 'Poor/missing page title', scores 100 - 20 - 15 - 15 =
    50, and records needs_redesign = false and is_hot_lead = false: 50 is
    not below 50. *)
Theorem home_page_over_http (w : Full.World) (url0 : string) (log : Log) (content : string)
    (soup : Full.Soup) :
  let u := ensure_protocol url0 in
  let text_content := lower (Full.soup_text soup) in
  let fetched := Get u :: log in
  startswith u "https://" = false ->
  Full.session_get w (clock log) u false = Full.Response 200 content ->
  Full.BeautifulSoup w content = Full.Parsed soup ->
  Full.find_viewport soup = None ->
  (exists title, Full.find_tag soup "title" = Some title /\
                 strip (Full.tag_text title) = "Home") ->
  outdated_copyright copyright_sign (year (Full.now w (clock fetched))) text_content = None ->
  str_in "lorem ipsum" text_content = false ->
  under_construction Full.construction_phrases text_content = false ->
  Full.uses_embedded soup = false ->
  isSome (Full.find_charset soup) = true ->
  Full.no_contact text_content = false ->
  fst (Full.count_broken w u soup fetched) = O ->
  let r := fst (Full.analyze_website w url0 log) in
  status r = analyzed /\
  issues r = ["No HTTPS"; "No mobile viewport"; "Poor/missing page title"] /\
  quality_score r = 50 /\
  needs_redesign r = Some false /\
  is_hot_lead r = Some false.
Proof.
  intros u text_content fetched Hu Hget Hsoup Hview (title & Htitle & Hhome)
         Hyear Hlorem Hcons Hemb Hchar Hcontact Hbroken r.
  subst r. unfold Full.analyze_website, Full.connect.
  fold u. rewrite Hget. unfold Full.evaluate. rewrite Hsoup.
  unfold Full.inspect, Full.check_status.
  fold text_content. fold fetched.
  unfold check_copyright, Full.poor_title.
  rewrite Hu, Hview, Hyear, Hlorem, Hcons, Hemb, Hchar, Htitle, Hhome, Hcontact, Hbroken.
  cbn. repeat split; reflexivity.
Qed.

Lemma home_page_over_http_witness :
  let r := fst (Full.analyze_website (Scenario.full_serving 200 Scenario.home_page)
                                     "http://example.com" []) in
  status r = analyzed /\
  issues r = ["No HTTPS"; "No mobile viewport"; "Poor/missing page title"] /\
  quality_score r = 50 /\
  needs_redesign r = Some false /\
  is_hot_lead r = Some false.
Proof.
  apply (home_page_over_http (Scenario.full_serving 200 Scenario.home_page)
                             "http://example.com" [] "<html>" Scenario.home_page);
    try reflexivity.
  exists (Full.mkTag "title" [] "Home"). split; reflexivity.
Defined.

(** C3 as stated fails: on that page the three issues and the score 50
    are as said, and needs_redesign is not true. *)
Lemma home_page_needs_no_redesign :
  let r := fst (Full.analyze_website (Scenario.full_serving 200 Scenario.home_page)
                                     "http://example.com" []) in
  issues r = ["No HTTPS"; "No mobile viewport"; "Poor/missing page title"] /\
  quality_score r = 50 /\
  needs_redesign r <> Some true.
Proof. cbv. repeat split; discriminate. Qed.

(** ** Membership in the issues list *)

Lemma in_add (x issue : string) (points : Z) (t : Tally) :
  In x (fst (add_issue issue points t)) <-> In x (fst t) \/ x = issue.
Proof.
  unfold add_issue. cbn [fst]. rewrite in_app_iff. simpl. intuition congruence.
Qed.

Lemma in_deduct (x : string) (c : bool) (issue : string) (points : Z) (t : Tally) :
  In x (fst (deduct c issue points t)) <-> In x (fst t) \/ (c = true /\ x = issue).
Proof.
  unfold deduct. destruct c.
  - rewrite in_add. intuition.
  - intuition discriminate.
Qed.

Lemma in_copyright (x sign : string) (cy : Z) (text : string) (t : Tally) :
  In x (fst (check_copyright sign cy text t)) <->
  In x (fst t) \/
  exists y, outdated_copyright sign cy text = Some y /\ x = "Outdated copyright: " ++ str_of_Z y.
Proof.
  unfold check_copyright. destruct (outdated_copyright sign cy text) as [y |].
  - rewrite in_add. split.
    + intros [H | H]; [now left | right; eauto].
    + intros [H | (y' & [= <-] & H)]; [now left | now right].
  - split; [now left |]. intros [H | (y & H & _)]; [assumption | discriminate].
Qed.

Lemma in_deduct_keep (x : string) (c : bool) (issue : string) (points : Z) (t : Tally) :
  In x (fst t) -> In x (fst (deduct c issue points t)).
Proof. intros. apply in_deduct. now left. Qed.

Lemma in_copyright_keep (x sign : string) (cy : Z) (text : string) (t : Tally) :
  In x (fst t) -> In x (fst (check_copyright sign cy text t)).
Proof. intros. apply in_copyright. now left. Qed.

Lemma in_add_keep (x issue : string) (points : Z) (t : Tally) :
  In x (fst t) -> In x (fst (add_issue issue points t)).
Proof. intros. apply in_add. now left. Qed.

Lemma in_deduct_here (c : bool) (issue : string) (points : Z) (t : Tally) :
  c = true -> In issue (fst (deduct c issue points t)).
Proof. intros. apply in_deduct. now right. Qed.

Lemma in_add_here (issue : string) (points : Z) (t : Tally) :
  In issue (fst (add_issue issue points t)).
Proof. apply in_add. now right. Qed.

Ltac keep :=
  repeat first [ apply in_deduct_keep | apply in_copyright_keep | apply in_add_keep ].

(** Down the checks to the one that appends the issue. *)
Ltac reach :=
  repeat first [ apply in_add_here | apply in_deduct_here
               | apply in_deduct_keep | apply in_copyright_keep | apply in_add_keep ].

Lemma deduction_of_nonneg (issue : string) : 0 <= deduction_of issue.
Proof.
  unfold deduction_of. destruct (broken_count issue); [lia |].
  repeat match goal with |- context [if ?c then _ else _] => destruct c; [lia |] end.
  destruct (find _ fixed_deductions) as [d |] eqn:E; [| lia].
  apply find_some in E as [E _]. simpl in E.
  repeat destruct E as [<- | E]; simpl; try lia; try contradiction.
Qed.

Lemma total_deductions_nonneg (l : list string) : 0 <= total_deductions l.
Proof.
  induction l as [| x l IH]; simpl; [lia |].
  pose proof (deduction_of_nonneg x). fold (total_deductions l). lia.
Qed.

Lemma total_deductions_one (x : string) (l : list string) :
  In x l -> deduction_of x <= total_deductions l.
Proof.
  induction l as [| z l IH]; simpl; [contradiction |].
  fold (total_deductions l).
  pose proof (deduction_of_nonneg z). pose proof (total_deductions_nonneg l).
  intros [-> | Hx]; [lia | specialize (IH Hx); lia].
Qed.

(** What two different issues of a list take off together. *)
Lemma total_deductions_two (x y : string) (l : list string) :
  In x l -> In y l -> x <> y -> deduction_of x + deduction_of y <= total_deductions l.
Proof.
  induction l as [| z l IH]; simpl; [contradiction |].
  fold (total_deductions l).
  pose proof (deduction_of_nonneg z). pose proof (total_deductions_nonneg l).
  intros [-> | Hx] [-> | Hy] Hne.
  - contradiction.
  - apply total_deductions_one in Hy. lia.
  - apply total_deductions_one in Hx. lia.
  - specialize (IH Hx Hy Hne). lia.
Qed.

(** ** C4: a status other than 200 *)


Lemma full_inspect_keeps (w : Full.World) (u : string) (soup : Full.Soup)
    (t : Tally) (log : Log) (x : string) :
  In x (fst t) -> In x (issues (fst (Full.inspect w u soup t log))).
Proof.
  intros H. unfold Full.inspect. cbn [fst issues]. keep. exact H.
Qed.



Lemma score_bound (r : AnalysisResult) (x : string) :
  score_explained r -> In x (issues r) -> deduction_of x <= 100 ->
  quality_score r <= 100 - deduction_of x.
Proof.
  intros [H _] Hx Hd. apply total_deductions_one in Hx. lia.
Qed.






(** The other end of an answered request: the page is answered with
    status 404 and the parser rejects its markup.  No further request is
    made, and the record is the 'Analysis error' record, without an
    'HTTP 404' issue. *)
Lemma rejected_markup_is_an_analysis_error :
  let out := Full.analyze_website (Scenario.full_unparsable 404) "https://example.com" [] in
  status (fst out) = error /\
  issues (fst out) = ["Analysis error: malformed start tag"] /\
  quality_score (fst out) = 0 /\
  requests (snd out) = ["https://example.com"].
Proof. cbv. repeat split. Qed.


(** ** C5: the requests of one analysis *)

Lemma requests_cons (e : Event) (log : Log) :
  requests (e :: log) =
  (requests log ++ match e with Get u => [u] | _ => [] end)%list.
Proof.
  unfold requests. simpl. rewrite flat_map_app. simpl. now rewrite app_nil_r.
Qed.

Lemma probe_requests (w : Full.World) (page : string) (acc : nat * Log) (img : Full.Tag) :
  requests (snd (Full.probe w page acc img)) = requests (snd acc).
Proof.
  unfold Full.probe. destruct (dict_get "src" (Full.tag_attrs img)) as [src |]; [| reflexivity].
  destruct (is_empty src); [reflexivity |].
  destruct (Full.urljoin w page src) as [img_url |]; [| reflexivity].
  destruct (Full.session_head w _ img_url); cbn [snd];
    rewrite requests_cons; apply app_nil_r.
Qed.

Lemma count_broken_requests (w : Full.World) (page : string) (soup : Full.Soup) (log : Log) :
  requests (snd (Full.count_broken w page soup log)) = requests log.
Proof.
  unfold Full.count_broken.
  change (requests log) with (requests (snd (O, log))).
  generalize (O, log). induction (firstn 5 (Full.find_all soup "img")) as [| img l IH];
    intros acc; simpl; [reflexivity |].
  rewrite IH. apply probe_requests.
Qed.

Lemma full_evaluate_requests (w : Full.World) (u : string) (code : Z) (content : string)
    (t : Tally) (log : Log) :
  requests (snd (Full.evaluate w u code content t log)) = requests log.
Proof.
  unfold Full.evaluate. destruct (Full.BeautifulSoup w content); [| reflexivity].
  unfold Full.inspect. cbn [snd]. apply count_broken_requests.
Qed.

Lemma simple_evaluate_log (w : Simple.World) (url0 date u response : string)
    (t : Tally) (log : Log) :
  snd (Simple.evaluate w url0 date u response t log) = log.
Proof. unfold Simple.evaluate. now destruct (Simple.has_viewport _). Qed.

(** C5, as the code has it. The page requests of an analysis are the
    request for the URL and at most one more, for the URL with https://
    replaced by http://.  The simple analyzer makes that further request
    exactly when the first fetch fails, for whatever reason, and the URL
    starts with https://.  The full analyzer makes it exactly when the
    first request raised an SSL error: not after an answer, whatever its
    status, and not after any other failure.  No analysis makes more
    than two page requests. *)
Theorem fallback_policy (a : Analyzer) (url0 : string) (log : Log) :
  let u := ensure_protocol url0 in
  let made := requests (snd (analyze_website a url0 log)) in
  (List.length made <= List.length (requests log) + 2)%nat /\
  made = (requests log ++
          u :: match a with
               | simple w =>
                   if Simple.fails (Simple.urlopen w (clock log) u) && startswith u "https://"
                   then [to_http u] else []
               | full w =>
                   match Full.session_get w (clock log) u false with
                   | Full.RaiseSSLError _ => [to_http u]
                   | _ => []
                   end
               end)%list.
Proof.
  intros u made. subst made. destruct a as [w | w]; simpl.
  - unfold Full.analyze_website, Full.connect. fold u. cbv zeta.
    destruct (Full.session_get w (clock log) u false) as [code content | msg | msg].
    + rewrite full_evaluate_requests, requests_cons, length_app. simpl.
      split; [lia | reflexivity].
    + destruct (Full.session_get w _ (to_http u) true);
        try rewrite full_evaluate_requests; cbn [snd];
        rewrite !requests_cons, <- app_assoc, length_app; simpl;
        (split; [lia | reflexivity]).
    + cbn [snd]. rewrite requests_cons, length_app. simpl.
      split; [lia | reflexivity].
  - unfold Simple.analyze_website, Simple.connect, Simple.fetch_url. fold u.
    destruct (Simple.urlopen w (clock log) u) as [body | code | reason | msg];
      cbn [Simple.fails andb];
      try (rewrite simple_evaluate_log, requests_cons, length_app; simpl;
           split; [lia | reflexivity]);
      (destruct (startswith u "https://");
       [ destruct (Simple.urlopen w _ (to_http u));
         try rewrite simple_evaluate_log; cbn [snd];
         rewrite !requests_cons, <- app_assoc, length_app; simpl;
         (split; [lia | reflexivity])
       | cbn [snd]; rewrite requests_cons, length_app; simpl;
         (split; [lia | reflexivity]) ]).
Qed.

Lemma fallback_policy_witness :
  let a := simple (Scenario.simple_http_only Scenario.home_events) in
  Simple.fails (Simple.urlopen (Scenario.simple_http_only Scenario.home_events) 0
                               "https://example.com") = true /\
  requests (snd (analyze_website a "example.com" []))
  = ["https://example.com"; "http://example.com"].
Proof.
  split; [reflexivity |].
  exact (proj2 (fallback_policy (simple (Scenario.simple_http_only Scenario.home_events))
                                "example.com" [])).
Defined.

(** An answered request is not retried, whatever its status: the full
    analyzer makes one page request for a page answered with 404. *)
Lemma answered_request_is_not_retried :
  requests (snd (Full.analyze_website (Scenario.full_serving 404 Scenario.home_page)
                                      "https://example.com" []))
  = ["https://example.com"].
Proof. reflexivity. Qed.

(** C5 as stated fails in the full analyzer: a refused connection to an
    https:// URL is not retried, and an SSL error on an http:// URL is. *)
Lemma connection_error_is_not_retried :
  Full.session_get Scenario.full_refusing 0 "https://example.com" false
    = Full.RaiseOther "Connection refused" /\
  startswith "https://example.com" "https://" = true /\
  requests (snd (Full.analyze_website Scenario.full_refusing "https://example.com" []))
    = ["https://example.com"] /\
  requests (snd (Full.analyze_website Scenario.full_refusing "https://example.com" []))
    <> ["https://example.com"; "http://example.com"] /\
  requests (snd (Full.analyze_website Scenario.full_tls_failing "http://example.com" []))
    = ["http://example.com"; "http://example.com"].
Proof. cbv. repeat split; discriminate. Qed.

(** ** C7: the contact check and the extracted contacts *)


Lemma full_connect_issues (w : Full.World) (u : string) (log : Log)
    (u' : string) (code : Z) (content : string) (t : Tally) (log' : Log) :
  Full.connect w u start log = Full.Got u' code content t log' ->
  fst t = [] \/ fst t = ["HTTPS not available"].
Proof.
  unfold Full.connect. destruct (Full.session_get w (clock log) u false).
  - intros [= <- <- <- <- <-]. now left.
  - destruct (Full.session_get w _ _ true); try discriminate.
    intros [= <- <- <- <- <-]. now right.
  - discriminate.
Qed.

Lemma simple_connect_issues (w : Simple.World) (u : string) (log : Log)
    (u' response : string) (t : Tally) (log' : Log) :
  Simple.connect w u start log = Simple.Got u' response t log' ->
  fst t = [] \/ fst t = ["HTTPS not available"].
Proof.
  unfold Simple.connect, Simple.fetch_url.
  destruct (Simple.urlopen w (clock log) u);
    try (intros [= <- <- <- <-]; now left);
    (destruct (startswith u "https://"); [| discriminate];
     destruct (Simple.urlopen w _ _); try discriminate;
     intros [= <- <- <- <-]; now right).
Qed.







Ltac absent_at_start :=
  match goal with
  | Ht : fst ?t = _, H : In _ (fst ?t) |- _ =>
      rewrite Ht in H; simpl in H; intuition discriminate
  end.





(** ** C8: the copyright check *)

Lemma py_range_nil (a b : Z) : b <= a -> py_range a b = [].
Proof.
  intros H. unfold py_range. replace (Z.to_nat (b - a)) with O by lia. reflexivity.
Qed.

Lemma py_range_cons (a b : Z) : a < b -> py_range a b = a :: py_range (a + 1) b.
Proof.
  intros H. unfold py_range.
  replace (Z.to_nat (b - a)) with (S (Z.to_nat (b - (a + 1)))) by lia.
  simpl. f_equal; [lia |].
  rewrite <- seq_shift, map_map. apply map_ext. intros i. lia.
Qed.

(** The loop over [range(a, b)] stops at the least year that is
    mentioned, and finds none only if none is. *)
Lemma find_in_range (f : Z -> bool) (b : Z) (n : nat) :
  forall a, Z.to_nat (b - a) = n ->
  match find f (py_range a b) with
  | Some y => a <= y < b /\ f y = true /\ forall z, a <= z < y -> f z = false
  | None => forall z, a <= z < b -> f z = false
  end.
Proof.
  induction n as [| n IH]; intros a Hn.
  - rewrite py_range_nil by lia. simpl. intros z Hz. lia.
  - rewrite py_range_cons by lia. simpl. destruct (f a) eqn:Fa.
    + split; [lia | split; [assumption |]]. intros z Hz. lia.
    + specialize (IH (a + 1) ltac:(lia)).
      destruct (find f (py_range (a + 1) b)) as [y |].
      * destruct IH as (Hy & Fy & Hz). split; [lia | split; [assumption |]].
        intros z Hz'. destruct (Z.eq_dec z a) as [-> | Hne]; [assumption |].
        apply Hz. lia.
      * intros z Hz. destruct (Z.eq_dec z a) as [-> | Hne]; [assumption |].
        apply IH. lia.
Qed.

(** The check both analyzers run: it fires for the least year of
    2015..current_year-2 whose notice the text contains, and not at all
    if there is none. *)
Lemma outdated_copyright_spec (sign : string) (current_year : Z) (text : string) :
  match outdated_copyright sign current_year text with
  | Some y =>
      2015 <= y <= current_year - 2 /\ mentions_year sign text y = true /\
      forall z, 2015 <= z < y -> mentions_year sign text z = false
  | None => forall z, 2015 <= z <= current_year - 2 -> mentions_year sign text z = false
  end.
Proof.
  unfold outdated_copyright.
  pose proof (find_in_range (mentions_year sign text) (current_year - 1) _ 2015 eq_refl) as H.
  destruct (find _ _) as [y |].
  - destruct H as (Hy & Fy & Hz). split; [lia | split; [assumption |]].
    intros z Hz'. apply Hz. lia.
  - intros z Hz. apply H. lia.
Qed.

Lemma append_inj (s a b : string) : s ++ a = s ++ b -> a = b.
Proof.
  induction s as [| c s IH]; simpl; [auto |]. intros [= H]. auto.
Qed.

Lemma str_of_Z_inj (a b : Z) : str_of_Z a = str_of_Z b -> a = b.
Proof.
  unfold str_of_Z. intros H. apply DecimalZ.to_int_inj.
  pose proof (NilEmpty.isi (Z.to_int a)) as Ha. rewrite H, NilEmpty.isi in Ha.
  now injection Ha.
Qed.

(** The year the check stops at is the only year that is mentioned and
    has no mentioned year of the range below it. *)
Lemma outdated_copyright_least (sign : string) (current_year : Z) (text : string) (y : Z) :
  outdated_copyright sign current_year text = Some y <->
  2015 <= y <= current_year - 2 /\ mentions_year sign text y = true /\
  forall z, 2015 <= z < y -> mentions_year sign text z = false.
Proof.
  pose proof (outdated_copyright_spec sign current_year text) as H.
  destruct (outdated_copyright sign current_year text) as [y' |]; split.
  - intros [= <-]. exact H.
  - intros (Hy & Fy & Hz). destruct H as (Hy' & Fy' & Hz').
    f_equal. destruct (Z.lt_trichotomy y y') as [Hlt | [Heq | Hgt]].
    + rewrite Hz' in Fy by lia. discriminate.
    + now symmetry.
    + rewrite Hz in Fy' by lia. discriminate.
  - discriminate.
  - intros (Hy & Fy & _). rewrite H in Fy by lia. discriminate.
Qed.

Lemma copyright_not_broken (s : string) (n : nat) :
  "Outdated copyright: " ++ s <> str_of_nat n ++ " broken images".
Proof.
  intros H. pose proof (deduction_of_broken n) as D. rewrite <- H in D.
  rewrite deduction_of_copyright in D.
  assert (n = 2%nat) as -> by lia. discriminate H.
Qed.

Ltac not_copyright_issue :=
  match goal with
  | H : "Outdated copyright: " ++ _ = _ |- _ =>
      first [ discriminate H | destruct (copyright_not_broken _ _ H) ]
  end.

(** The full analyzer does what C8 says: it lists 'Outdated copyright:
    y' exactly for the least year y of 2015..current_year-2 for which the
    lower-cased text contains the copyright sign or 'copyright', a space
    and the year. *)
Lemma full_copyright_issue (w : Full.World) (u : string) (code : Z) (soup : Full.Soup)
    (t : Tally) (log : Log) (y : Z) :
  fst t = [] \/ fst t = ["HTTPS not available"] ->
  let r := fst (Full.inspect w u soup (Full.check_status code t) log) in
  let text_content := lower (Full.soup_text soup) in
  let current_year := year (Full.now w (clock log)) in
  In ("Outdated copyright: " ++ str_of_Z y) (issues r) <->
  2015 <= y <= current_year - 2 /\ mentions_year copyright_sign text_content y = true /\
  forall z, 2015 <= z < y -> mentions_year copyright_sign text_content z = false.
Proof.
  intros Ht r text_content current_year. rewrite <- outdated_copyright_least.
  subst r. unfold Full.inspect, Full.check_status. cbn [fst issues].
  rewrite !in_deduct, in_copyright, !in_deduct. split.
  - intros H.
    repeat match goal with
           | H : _ \/ _ |- _ => destruct H as [H | H]
           | H : _ /\ _ |- _ => destruct H
           | H : exists _, _ |- _ => destruct H
           end; try not_copyright_issue; try absent_at_start;
      match goal with
      | E : outdated_copyright _ _ _ = Some ?y', H : _ ++ str_of_Z y = _ ++ str_of_Z ?y' |- _ =>
          apply append_inj in H; apply str_of_Z_inj in H; subst y'; exact E
      end.
  - intros H. do 7 left. right. eauto.
Qed.

Lemma lower_char_not_194 (c : ascii) : Ascii.eqb "194" (lower_char c) = false.
Proof.
  destruct c as [[] [] [] [] [] [] [] []]; reflexivity.
Qed.

Lemma has_char_app (a : ascii) (s1 s2 : string) :
  has_char a (s1 ++ s2) = has_char a s1 || has_char a s2.
Proof.
  induction s1 as [| c s1 IH]; simpl; [reflexivity |].
  now rewrite IH, orb_assoc.
Qed.

Lemma has_char_lower (s : string) : has_char "194" (lower s) = false.
Proof.
  induction s as [| c s IH]; cbn [has_char lower]; [reflexivity |].
  now rewrite lower_char_not_194, IH.
Qed.

Lemma str_in_first_char (a : ascii) (rest s : string) :
  has_char a s = false -> str_in (String a rest) s = false.
Proof.
  induction s as [| c s IH]; simpl; [reflexivity |].
  intros H. apply orb_false_elim in H as [H1 H2].
  rewrite (IH H2), orb_false_r.
  destruct (ascii_dec a c) as [-> |]; [| reflexivity].
  now rewrite Ascii.eqb_refl in H1.
Qed.

Lemma parser_text_has_no_194 (events : list Simple.ParseEvent) :
  forall p,
    has_char "194" (Simple.text_content p) = false ->
    has_char "194" (Simple.text_content (fold_left Simple.handle events p)) = false.
Proof.
  induction events as [| e events IH]; intros p Hp; simpl; [exact Hp |].
  apply IH. destruct e as [tag attrs | tag | data]; simpl.
  - unfold Simple.handle_starttag.
    destruct (String.eqb tag "title"); [exact Hp |].
    destruct (String.eqb tag "meta"); exact Hp.
  - unfold Simple.handle_endtag. destruct (String.eqb tag "title"); exact Hp.
  - rewrite !has_char_app, Hp, has_char_lower. reflexivity.
Qed.

(** In the simple analyzer the sign form of the notice never fires: the
    text it scans is lower-cased and so has no character 194. *)
Lemma simple_sign_never_matches (w : Simple.World) (response : string) (y : Z) :
  let text := Simple.text_content (fst (Simple.feed w response)) in
  mentions_year copyright_sign_twice_encoded text y
  = str_in ("copyright " ++ str_of_Z y) text.
Proof.
  intros text. unfold mentions_year, copyright_sign_twice_encoded.
  change (String "194" (String "169" EmptyString) ++ " " ++ str_of_Z y)
    with (String "194" (String "169" (String " " (str_of_Z y)))).
  rewrite str_in_first_char; [reflexivity |].
  subst text. unfold Simple.feed. cbn [fst].
  now apply parser_text_has_no_194.
Qed.

(** C8 fails in the simple analyzer. The lower-cased text of the page
    contains the copyright sign followed by ' 2016', and 2016 lies in
    2015..current_year-2, yet the simple analyzer lists no 'Outdated
    copyright: 2016': its source has two characters (194, 169) where the
    full analyzer has the copyright sign, and the full analyzer lists the
    issue for the same text. *)
Theorem simple_misses_copyright_sign :
  let w := Scenario.simple_serving Scenario.stale_events in
  let r := fst (Simple.analyze_website w "https://example.com" []) in
  let text := Simple.text_content (fst (Simple.feed w "<html>")) in
  let full_r := fst (Full.analyze_website (Scenario.full_serving 200 Scenario.stale_page)
                                          "https://example.com" []) in
  str_in (copyright_sign ++ " 2016") text = true /\
  2015 <= 2016 <= year (Simple.now w 1) - 2 /\
  status r = analyzed /\
  ~ In "Outdated copyright: 2016" (issues r) /\
  quality_score r = 65 /\
  In "Outdated copyright: 2016" (issues full_r).
Proof.
  cbv zeta. repeat split; try (vm_compute; intuition discriminate).
Qed.

(** ** C9: the batch driver *)

Section BatchLemmas.

Variable analyze : string -> Log -> AnalysisResult * Log.
Variable delay : Z.
Variable total : nat.


Lemma batch_loop_length (urls : list string) :
  forall i results log,
    List.length (fst (batch_loop analyze delay total i urls results log))
    = (List.length results + List.length urls)%nat.
Proof.
  induction urls as [| u rest IH]; intros i results log; simpl.
  - lia.
  - rewrite IH, length_app. simpl. lia.
Qed.


End BatchLemmas.



(** ** C10: the two issues of a fallback *)

Lemma full_fell_back (w : Full.World) (u : string) (log : Log) :
  Full.fell_back w u log = true ->
  exists code content log',
    Full.connect w u start log
    = Full.Got (to_http u) code content (add_issue "HTTPS not available" 20 start) log'.
Proof.
  unfold Full.fell_back, Full.connect.
  destruct (Full.session_get w (clock log) u false); try discriminate.
  cbv zeta. destruct (Full.session_get w _ (to_http u) true); try discriminate.
  eauto.
Qed.

Lemma simple_fell_back (w : Simple.World) (u : string) (log : Log) :
  Simple.fell_back w u log = true ->
  exists response log',
    Simple.connect w u start log
    = Simple.Got (to_http u) response (add_issue "HTTPS not available" 20 start) log'.
Proof.
  unfold Simple.fell_back, Simple.connect, Simple.fetch_url.
  intros H. apply andb_prop in H as [H H2]. apply andb_prop in H as [H0 H1].
  rewrite H1.
  destruct (Simple.urlopen w (clock log) u); try discriminate;
    (destruct (Simple.urlopen w _ (to_http u)); try discriminate; eauto).
Qed.

Lemma full_inspect_no_https (w : Full.World) (u : string) (soup : Full.Soup)
    (t : Tally) (log : Log) :
  startswith u "https://" = false ->
  In "No HTTPS" (issues (fst (Full.inspect w u soup t log))).
Proof.
  intros H. unfold Full.inspect. cbn [fst issues]. reach. now rewrite H.
Qed.

Lemma simple_evaluate_issues (w : Simple.World) (url0 date u response : string)
    (t : Tally) (log : Log) :
  status (fst (Simple.evaluate w url0 date u response t log)) = analyzed ->
  startswith u "https://" = false ->
  In "No HTTPS" (issues (fst (Simple.evaluate w url0 date u response t log))) /\
  forall x, In x (fst t) -> In x (issues (fst (Simple.evaluate w url0 date u response t log))).
Proof.
  unfold Simple.evaluate. destruct (Simple.has_viewport _); [| discriminate].
  intros _ H. cbn [fst issues]. split.
  - reach. now rewrite H.
  - intros x Hx. keep. destruct (snd (Simple.feed w response)); keep; exact Hx.
Qed.

(** C10, as the code has it. Whenever the fallback from https to http is
    taken and answered and the analysis completes (status 'analyzed'),
    the URL that was fetched starts with 'http://' and not with
    'https://', so the record lists both 'HTTPS not available' and 'No
    HTTPS', 20 points each, and its score is at most 60; the full
    analyzer records that URL. *)
Theorem fallback_costs_forty (a : Analyzer) (url0 : string) (log : Log) :
  let r := fst (analyze_website a url0 log) in
  let fetched := to_http (ensure_protocol url0) in
  fell_back a url0 log = true ->
  status r = analyzed ->
  startswith fetched "http://" = true /\
  startswith fetched "https://" = false /\
  In "HTTPS not available" (issues r) /\
  In "No HTTPS" (issues r) /\
  deduction_of "HTTPS not available" + deduction_of "No HTTPS" = 40 /\
  quality_score r <= 60 /\
  (forall w, a = full w -> url r = fetched).
Proof.
  intros r fetched Hf Hs.
  destruct (to_http_never_https url0) as [Hhttp Hnot].
  assert (Hin : In "HTTPS not available" (issues r) /\ In "No HTTPS" (issues r) /\
                (forall w, a = full w -> url r = fetched)).
  { subst r fetched. destruct a as [w | w]; simpl in *.
    - revert Hs. unfold Full.analyze_website.
      destruct (full_fell_back _ _ _ Hf) as (code & content & log' & ->).
      intros Hs. destruct (full_evaluate_analyzed _ _ _ _ _ _ Hs) as [soup Es].
      rewrite (full_evaluate_parsed _ _ _ _ _ _ _ Es).
      repeat split.
      + apply full_inspect_keeps. unfold Full.check_status.
        apply in_deduct_keep, in_add_here.
      + now apply full_inspect_no_https.
    - revert Hs. unfold Simple.analyze_website.
      destruct (simple_fell_back _ _ _ Hf) as (response & log' & ->).
      intros Hs. destruct (simple_evaluate_issues _ _ _ _ _ _ _ Hs Hnot) as [H1 H2].
      repeat split; [apply H2, in_add_here | exact H1 | discriminate]. }
  destruct Hin as (H1 & H2 & H3).
  repeat split; try assumption.
  pose proof (analyzed_score_explained a url0 log Hs) as [He _].
  fold r in He.
  assert (Hd : deduction_of "HTTPS not available" + deduction_of "No HTTPS"
               <= total_deductions (issues r))
    by (apply total_deductions_two; [assumption | assumption | discriminate]).
  change (deduction_of "HTTPS not available" + deduction_of "No HTTPS") with 40 in Hd.
  lia.
Qed.

Lemma fallback_costs_forty_witness :
  let r := fst (analyze_website (full Scenario.full_tls_failing) "example.com" []) in
  fell_back (full Scenario.full_tls_failing) "example.com" [] = true /\
  status r = analyzed /\
  In "HTTPS not available" (issues r) /\
  In "No HTTPS" (issues r) /\
  quality_score r <= 60 /\
  url r = "http://example.com".
Proof.
  split; [reflexivity |]. split; [reflexivity |].
  pose proof (fallback_costs_forty (full Scenario.full_tls_failing) "example.com" []
                                   eq_refl eq_refl) as (_ & _ & H1 & H2 & _ & H3 & H4).
  split; [exact H1 |]. split; [exact H2 |]. split; [exact H3 |].
  apply (H4 Scenario.full_tls_failing eq_refl).
Defined.

(** C10 as stated fails in the simple analyzer: after a fallback that
    was answered, the recorded url is the one given, which does not start
    with 'http://'; and on a page whose meta tag has a [name] without a
    value the analysis ends in an error record with neither issue. *)
Lemma fallback_record_keeps_given_url :
  let w := Scenario.simple_http_only Scenario.home_events in
  let r := fst (Simple.analyze_website w "https://example.com" []) in
  let w' := Scenario.simple_http_only Scenario.valueless_events in
  let r' := fst (Simple.analyze_website w' "https://example.com" []) in
  Simple.fell_back w "https://example.com" [] = true /\
  status r = analyzed /\
  url r = "https://example.com" /\
  startswith (url r) "http://" = false /\
  Simple.fell_back w' "https://example.com" [] = true /\
  status r' = error /\
  ~ In "HTTPS not available" (issues r') /\
  ~ In "No HTTPS" (issues r').
Proof.
  cbv zeta. repeat split; try (vm_compute; intuition discriminate).
Qed.

(** * Further properties of the analyzers and of their callers *)

(** ** What every record of a batch satisfies *)

Lemma batch_loop_forall (analyze : string -> Log -> AnalysisResult * Log)
    (P : AnalysisResult -> Prop) (delay : Z) (total : nat) :
  (forall u log, P (fst (analyze u log))) ->
  forall urls i results log,
    Forall P results -> Forall P (fst (batch_loop analyze delay total i urls results log)).
Proof.
  intros HP. induction urls as [| u rest IH]; intros i results log H; simpl; [exact H |].
  apply IH. apply Forall_app. split; [exact H | constructor; [apply HP | constructor]].
Qed.

Lemma batch_forall (a : Analyzer) (P : AnalysisResult -> Prop) :
  (forall u log, P (fst (analyze_website a u log))) ->
  forall urls delay log, Forall P (fst (batch_analyze a urls delay log)).
Proof.
  intros HP urls delay log.
  assert (E : batch_analyze a = batch (analyze_website a)) by (destruct a; reflexivity).
  rewrite E. unfold batch. apply batch_loop_forall; [exact HP | constructor].
Qed.

(** ** The recorded url of the full analyzer *)

Lemma full_evaluate_url (w : Full.World) (u : string) (code : Z) (content : string)
    (t : Tally) (log : Log) :
  url (fst (Full.evaluate w u code content t log)) = u.
Proof.
  unfold Full.evaluate. now destruct (Full.BeautifulSoup w content).
Qed.

(** X1. Every record of the full analyzer, whatever its status, has a
    url that starts with 'http://' or 'https://': the scheme is put in
    front before the first request, and the fallback only replaces it. *)
Theorem full_url_has_scheme (w : Full.World) (url0 : string) (log : Log) :
  let r := fst (Full.analyze_website w url0 log) in
  startswith (url r) "http://" = true \/ startswith (url r) "https://" = true.
Proof.
  unfold Full.analyze_website, Full.connect.
  pose proof (ensure_protocol_scheme url0) as Hs.
  pose proof (to_http_never_https url0) as [Hh _].
  destruct (Full.session_get w (clock log) (ensure_protocol url0) false); cbv zeta.
  - rewrite full_evaluate_url. exact Hs.
  - destruct (Full.session_get w _ _ true); [rewrite full_evaluate_url | cbn | cbn];
      now left.
  - cbn. exact Hs.
Qed.

(** ** Every listed issue costs points *)

Lemma costly_start : Report.costly start.
Proof. constructor. Qed.

Lemma costly_add (issue : string) (points : Z) (t : Tally) :
  5 <= deduction_of issue -> Report.costly t -> Report.costly (add_issue issue points t).
Proof.
  intros Hd Ht. unfold Report.costly, add_issue. cbn [fst].
  apply Forall_app. split; [exact Ht | constructor; [exact Hd | constructor]].
Qed.

Lemma costly_deduct (c : bool) (issue : string) (points : Z) (t : Tally) :
  (c = true -> 5 <= deduction_of issue) ->
  Report.costly t -> Report.costly (deduct c issue points t).
Proof.
  intros Hd Ht. unfold deduct. destruct c; [apply costly_add; auto | exact Ht].
Qed.

Lemma costly_copyright (sign : string) (cy : Z) (text : string) (t : Tally) :
  Report.costly t -> Report.costly (check_copyright sign cy text t).
Proof.
  intros Ht. unfold check_copyright. destruct (outdated_copyright sign cy text); [| exact Ht].
  apply costly_add; [rewrite deduction_of_copyright; lia | exact Ht].
Qed.

Ltac cost :=
  repeat first
    [ assumption
    | apply costly_start
    | apply costly_copyright
    | apply costly_deduct; [intros _; first [rewrite deduction_of_http; lia | vm_compute; discriminate] |]
    | apply costly_add; [first [rewrite deduction_of_parsing; lia | vm_compute; discriminate] |] ].

Lemma analyzed_issues_costly (a : Analyzer) (url0 : string) (log : Log) :
  status (fst (analyze_website a url0 log)) = analyzed ->
  Forall (fun x => 5 <= deduction_of x) (issues (fst (analyze_website a url0 log))).
Proof.
  destruct a as [w | w]; simpl.
  - unfold Full.analyze_website.
    destruct (Full.connect w (ensure_protocol url0) start log) eqn:E.
    + intros Hs. destruct (full_evaluate_analyzed _ _ _ _ _ _ Hs) as [soup Es].
      rewrite (full_evaluate_parsed _ _ _ _ _ _ _ Es). clear Hs.
      assert (Ht : Report.costly t).
      { revert E. unfold Full.connect.
        destruct (Full.session_get w (clock log) (ensure_protocol url0) false);
          try discriminate.
        - intros [= <- <- <- <- <-]. cost.
        - cbv zeta. destruct (Full.session_get w _ _ true); try discriminate.
          intros [= <- <- <- <- <-]. cost. }
      unfold Full.inspect, Full.check_status. cbn [fst issues].
      apply costly_deduct; [| cost].
      intros Hn. rewrite deduction_of_broken. apply Nat.ltb_lt in Hn. lia.
    + apply full_connect_failed in E as (u' & issue & ->). discriminate.
  - unfold Simple.analyze_website.
    destruct (Simple.connect w (ensure_protocol url0) start log) eqn:E; [| discriminate].
    assert (Ht : Report.costly t).
    { revert E. unfold Simple.connect, Simple.fetch_url.
      destruct (Simple.urlopen w (clock log) (ensure_protocol url0));
        try (intros [= <- <- <- <-]; cost);
        (destruct (startswith (ensure_protocol url0) "https://"); [| discriminate];
         destruct (Simple.urlopen w _ _); try discriminate;
         intros [= <- <- <- <-]; cost). }
    unfold Simple.evaluate. destruct (Simple.has_viewport _); [| discriminate].
    intros _. cbn [fst issues].
    destruct (snd (Simple.feed w response)); cost.
Qed.

Lemma total_at_least (l : list string) :
  Forall (fun x => 5 <= deduction_of x) l ->
  5 * Z.of_nat (List.length l) <= total_deductions l.
Proof.
  induction 1 as [| x l Hx Hl IH]; simpl; [lia |].
  fold (total_deductions l). lia.
Qed.

(** X2. In a completed analysis of either analyzer every listed issue
    stands for at least five points: the score is 100 exactly when no
    issue is listed, and it is at most 100 less five points per issue. *)
Theorem perfect_score_iff_no_issue (a : Analyzer) (url0 : string) (log : Log) :
  let r := fst (analyze_website a url0 log) in
  status r = analyzed ->
  (quality_score r = 100 <-> issues r = []) /\
  quality_score r <= Z.max 0 (100 - 5 * Z.of_nat (List.length (issues r))).
Proof.
  intros r Hs.
  pose proof (analyzed_score_explained a url0 log Hs) as [He _].
  pose proof (total_at_least _ (analyzed_issues_costly a url0 log Hs)) as Ht.
  fold r in He, Ht. split; [split |].
  - intros H. destruct (issues r); [reflexivity |]. simpl List.length in Ht. lia.
  - intros H. rewrite H in He. simpl in He. lia.
  - lia.
Qed.

Lemma perfect_score_iff_no_issue_witness :
  let r := fst (analyze_website (simple (Scenario.simple_serving Scenario.home_events))
                                "https://example.com" []) in
  status r = analyzed /\
  (quality_score r = 100 <-> issues r = []) /\
  quality_score r <= Z.max 0 (100 - 5 * Z.of_nat (List.length (issues r))).
Proof.
  split; [reflexivity |].
  apply (perfect_score_iff_no_issue (simple (Scenario.simple_serving Scenario.home_events))
                                    "https://example.com" []).
  reflexivity.
Defined.

(** ** The requests for images *)

Lemma heads_cons (e : Event) (log : Log) :
  Report.heads (e :: log) =
  (Report.heads log ++ match e with Head u => [u] | _ => [] end)%list.
Proof.
  unfold Report.heads. simpl. rewrite flat_map_app. simpl. now rewrite app_nil_r.
Qed.

Lemma sleeps_cons (e : Event) (log : Log) :
  Report.sleeps (e :: log) =
  (Report.sleeps log ++ match e with Sleep d => [d] | _ => [] end)%list.
Proof.
  unfold Report.sleeps. simpl. rewrite flat_map_app. simpl. now rewrite app_nil_r.
Qed.

Lemma probe_bounds (w : Full.World) (page : string) (acc : nat * Log) (img : Full.Tag) :
  let acc' := Full.probe w page acc img in
  (fst acc' <= S (fst acc))%nat /\
  (List.length (Report.heads (snd acc')) <= S (List.length (Report.heads (snd acc))))%nat /\
  Report.sleeps (snd acc') = Report.sleeps (snd acc).
Proof.
  unfold Full.probe. destruct (dict_get "src" (Full.tag_attrs img)) as [src |]; [| cbn; auto].
  destruct (is_empty src); [cbn; auto |].
  destruct (Full.urljoin w page src) as [img_url |]; [| cbn; auto].
  destruct (Full.session_head w _ img_url) as [code |]; cbn [fst snd];
    rewrite heads_cons, sleeps_cons, length_app, app_nil_r; simpl;
    repeat split; try lia.
  destruct (code =? 404); lia.
Qed.

Lemma probes_bounds (w : Full.World) (page : string) (imgs : list Full.Tag) :
  forall acc,
    let acc' := fold_left (Full.probe w page) imgs acc in
    (fst acc' <= fst acc + List.length imgs)%nat /\
    (List.length (Report.heads (snd acc'))
     <= List.length (Report.heads (snd acc)) + List.length imgs)%nat /\
    Report.sleeps (snd acc') = Report.sleeps (snd acc).
Proof.
  induction imgs as [| img imgs IH]; intros acc; simpl.
  - repeat split; lia.
  - destruct (IH (Full.probe w page acc img)) as (H1 & H2 & H3).
    destruct (probe_bounds w page acc img) as (P1 & P2 & P3).
    cbv zeta in *. rewrite H3, P3. repeat split; lia.
Qed.

Lemma count_broken_bounds (w : Full.World) (page : string) (soup : Full.Soup) (log : Log) :
  (fst (Full.count_broken w page soup log) <= 5)%nat /\
  (List.length (Report.heads (snd (Full.count_broken w page soup log)))
   <= List.length (Report.heads log) + 5)%nat /\
  Report.sleeps (snd (Full.count_broken w page soup log)) = Report.sleeps log.
Proof.
  unfold Full.count_broken.
  destruct (probes_bounds w page (firstn 5 (Full.find_all soup "img")) (O, log))
    as (H1 & H2 & H3).
  pose proof (firstn_le_length 5 (Full.find_all soup "img")) as Hl.
  cbv zeta in *. cbn [fst snd] in *. repeat split; try lia. exact H3.
Qed.

Lemma broken_inj (n m : nat) :
  str_of_nat n ++ " broken images" = str_of_nat m ++ " broken images" -> n = m.
Proof.
  intros H. pose proof (deduction_of_broken n) as D.
  rewrite H, deduction_of_broken in D. lia.
Qed.

(** An issue of another check is no count of broken images. *)
Ltac other_issue H :=
  match type of H with
  | str_of_nat ?n ++ " broken images" = ?x =>
      let D := fresh "D" in
      pose proof (deduction_of_broken n) as D; rewrite H in D;
      first [ rewrite deduction_of_http in D
            | rewrite deduction_of_copyright in D
            | let d := fresh "d" in
              let Hd := fresh "Hd" in
              remember (deduction_of x) as d eqn:Hd; vm_compute in Hd; subst d ];
      destruct n as [| [| [| [| [| [| [| n]]]]]]]; try (exfalso; lia); discriminate H
  end.

Lemma full_connect_log (w : Full.World) (u : string) (t : Tally) (log : Log) :
  match Full.connect w u t log with
  | Full.Got _ _ _ _ log' | Full.Failed _ log' =>
      Report.heads log' = Report.heads log /\ Report.sleeps log' = Report.sleeps log
  end.
Proof.
  unfold Full.connect.
  destruct (Full.session_get w (clock log) u false); cbv zeta;
    try destruct (Full.session_get w _ _ true);
    rewrite ?heads_cons, ?sleeps_cons, ?app_nil_r; split; reflexivity.
Qed.

(** X3. The full analyzer asks for at most five images in one analysis,
    so a count of broken images that a completed analysis lists lies
    between 1 and 5 and costs at most 25 points. *)
Theorem at_most_five_images (w : Full.World) (url0 : string) (log : Log) :
  let out := Full.analyze_website w url0 log in
  (List.length (Report.heads (snd out)) <= List.length (Report.heads log) + 5)%nat /\
  forall n, status (fst out) = analyzed ->
            In (str_of_nat n ++ " broken images") (issues (fst out)) ->
            (1 <= n <= 5)%nat /\ deduction_of (str_of_nat n ++ " broken images") <= 25.
Proof.
  unfold Full.analyze_website.
  pose proof (full_connect_log w (ensure_protocol url0) start log) as Hl.
  destruct (Full.connect w (ensure_protocol url0) start log) eqn:E.
  - destruct Hl as [Hh _].
    pose proof (full_connect_issues _ _ _ _ _ _ _ _ E) as Ht.
    unfold Full.evaluate.
    destruct (Full.BeautifulSoup w content) as [soup | msg];
      [| cbn [fst snd]; split; [rewrite Hh; lia | discriminate]].
    destruct (count_broken_bounds w final_url soup log0) as (B1 & B2 & _).
    unfold Full.inspect, Full.check_status.
    cbn [fst snd issues]. split; [rewrite <- Hh; exact B2 |].
    intros n _. rewrite !in_deduct, in_copyright, !in_deduct. intros H.
    repeat match goal with
           | H : _ \/ _ |- _ => destruct H as [H | H]
           | H : _ /\ _ |- _ => destruct H
           | H : exists _, _ |- _ => destruct H
           end;
      try match goal with
          | Hi : In _ (fst t), Hf : fst t = _ |- _ =>
              rewrite Hf in Hi; simpl in Hi;
              repeat match goal with H : _ \/ _ |- _ => destruct H as [H | H] end;
              try contradiction; symmetry in Hi
          end;
      try match goal with H : str_of_nat _ ++ _ = str_of_nat _ ++ _ |- _ =>
            apply broken_inj in H; subst n;
            match goal with Hc : Nat.ltb 0 _ = true |- _ => apply Nat.ltb_lt in Hc end;
            rewrite deduction_of_broken; split; lia
          end;
      match goal with H : str_of_nat _ ++ _ = _ |- _ => other_issue H end.
  - destruct Hl as [Hh _]. apply full_connect_failed in E as (u' & issue & ->).
    cbn [fst snd]. split; [rewrite Hh; lia | discriminate].
Qed.

Lemma at_most_five_images_witness :
  let out := Full.analyze_website Scenario.full_missing_images "https://example.com" [] in
  status (fst out) = analyzed /\
  In (str_of_nat 5 ++ " broken images") (issues (fst out)) /\
  List.length (Report.heads (snd out)) = 5%nat /\
  deduction_of (str_of_nat 5 ++ " broken images") <= 25.
Proof.
  split; [reflexivity |]. split; [vm_compute; tauto |]. split; [reflexivity |].
  apply (proj2 (at_most_five_images Scenario.full_missing_images "https://example.com" [])
               5%nat eq_refl).
  vm_compute. tauto.
Defined.

(** ** The pauses and the requests of a batch *)








(** ** The summary of a batch *)

Lemma analysis_sound (a : Analyzer) (u : string) (log : Log) :
  Report.sound (fst (analyze_website a u log)).
Proof.
  unfold Report.sound.
  pose proof (analyzed_score_explained a u log) as He.
  assert (H : match status (fst (analyze_website a u log)) with
              | analyzed =>
                  needs_redesign (fst (analyze_website a u log))
                  = Some (quality_score (fst (analyze_website a u log)) <? 50) /\
                  is_hot_lead (fst (analyze_website a u log))
                  = Some (quality_score (fst (analyze_website a u log)) <? 30)
              | error =>
                  quality_score (fst (analyze_website a u log)) = 0 /\
                  needs_redesign (fst (analyze_website a u log)) = None /\
                  is_hot_lead (fst (analyze_website a u log)) = None
              end).
  { destruct a as [w | w]; simpl.
    - pose proof (full_record w u log) as H. cbv zeta in H.
      destruct (status _); [tauto |].
      destruct H as (H0 & _ & [= H1 H2 _ _ _ _]). unfold isSome in H1, H2.
      split; [exact H0 |].
      split; [destruct (needs_redesign _) | destruct (is_hot_lead _)];
        (reflexivity || discriminate).
    - pose proof (simple_record w u log) as H. cbv zeta in H.
      destruct (status _); [tauto |].
      destruct H as (H0 & _ & [= H1 H2]). unfold isSome in H1, H2.
      split; [exact H0 |].
      split; [destruct (needs_redesign _) | destruct (is_hot_lead _)];
        (reflexivity || discriminate). }
  destruct (status (fst (analyze_website a u log))).
  - destruct H as [H1 H2]. destruct (He eq_refl) as [_ Hq]. rewrite H1, H2. simpl.
    repeat split; try lia; try discriminate.
  - destruct H as (H0 & H1 & H2). rewrite H0, H1, H2. simpl.
    repeat split; try lia; try discriminate.
Qed.




(** ** The report of the command interface *)

Lemma simple_entry (w : Simple.World) (u : string) (log : Log) :
  Report.displayable (fst (Simple.analyze_website w u log)).
Proof.
  set (r := fst (Simple.analyze_website w u log)). unfold Report.displayable.
  pose proof (simple_record w u log) as H. cbv zeta in H. fold r in H.
  unfold Report.entry, Report.is_error, Report.is_analyzed.
  destruct (status r).
  - destruct H as (H1 & H2 & [= _ _ K1 K2 K3 _]).
    destruct (business_name r) as [name |]; [| discriminate].
    destruct (phone r) as [p |]; [| discriminate].
    destruct (email r) as [e |]; [| discriminate].
    eexists. split; [reflexivity |]. rewrite H1, H2.
    unfold Report.is_hot, Report.is_good. cbn.
    destruct (Z.ltb_spec (quality_score r) 30), (Z.ltb_spec (quality_score r) 50);
      cbn; intuition (try discriminate; try lia).
  - destruct H as (H0 & _ & [= K4 K5 K1 K2 K3 _]).
    destruct (business_name r) as [name |]; [| discriminate].
    destruct (phone r) as [p |]; [| discriminate].
    destruct (email r) as [e |]; [| discriminate].
    destruct (needs_redesign r); [discriminate |].
    destruct (is_hot_lead r); [discriminate |].
    eexists. split; [reflexivity |]. rewrite H0.
    unfold Report.is_hot, Report.is_good. cbn. intuition discriminate.
Qed.

Lemma entries_counts (results : list AnalysisResult) :
  Forall Report.displayable results ->
  Forall Report.sound results ->
  exists es,
    Report.entries results = Some es /\
    List.length es = List.length results /\
    List.length (filter Report.is_hot es)
    = (Report.count_hot_leads results + List.length (filter Report.is_error results))%nat /\
    (List.length (filter Report.is_good es) + Report.count_hot_leads results)%nat
    = Report.count_needs_redesign results.
Proof.
  unfold Report.count_hot_leads, Report.count_needs_redesign.
  induction 1 as [| r results (e & He & Hh & Hg & Hx) Hl IH]; intros Hs.
  - exists []. repeat split.
  - inversion Hs as [| r' l' (S1 & _) Hs']; subst.
    destruct (IH Hs') as (es & E & L & C1 & C2).
    exists (e :: es). cbn [Report.entries filter List.length]. rewrite He, E.
    split; [reflexivity |]. split; [now rewrite L |].
    destruct (Report.is_hot e) eqn:Eh, (Report.is_good e) eqn:Eg,
             (get_flag (is_hot_lead r)) eqn:Fh, (get_flag (needs_redesign r)) eqn:Fn,
             (Report.is_error r) eqn:Fe;
      cbn [List.length]; try (split; lia); exfalso;
      intuition (try discriminate; try congruence).
Qed.

(** X6. The report of the command interface never fails on a batch of
    the simple analyzer: every record, error records included, has the
    keys it indexes.  It shows one entry per URL; its count of hot leads
    is the count of the summary plus the number of error records (whose
    score 0 is below 30 although they carry no flag), and its good
    prospects are the records that need a redesign and are not hot. *)
Theorem report_counts_errors_as_hot (w : Simple.World) (urls : list string) (delay : Z)
    (log : Log) :
  let results := fst (Simple.batch_analyze w urls delay log) in
  exists d,
    Report.format_results results = Some d /\
    match d with
    | Report.NoResults => urls = []
    | Report.Shown es hot good =>
        List.length es = List.length urls /\
        hot = (Report.count_hot_leads results
               + List.length (filter Report.is_error results))%nat /\
        (good + Report.count_hot_leads results)%nat = Report.count_needs_redesign results
    end.
Proof.
  intros results.
  pose proof (batch_forall (simple w) Report.displayable (simple_entry w) urls delay log)
    as He.
  pose proof (batch_forall (simple w) Report.sound (analysis_sound (simple w)) urls delay log)
    as Hs.
  assert (Hl : List.length results = List.length urls)
    by (unfold results, Simple.batch_analyze, batch; apply batch_loop_length).
  simpl in He, Hs. fold results in He, Hs.
  destruct (entries_counts results He Hs) as (es & E & L & C1 & C2).
  unfold Report.format_results. destruct results as [| r rest] eqn:Er.
  - exists Report.NoResults. split; [reflexivity |].
    destruct urls; [reflexivity | discriminate].
  - rewrite E. eexists. split; [reflexivity |]. cbn beta iota.
    split; [congruence | split; assumption].
Qed.

(** ** The export of the hot leads *)




(** ** The shape of a match *)

Lemma all_chars_impl (f g : ascii -> bool) (s : string) :
  (forall c, f c = true -> g c = true) -> all_chars f s = true -> all_chars g s = true.
Proof.
  intros H. induction s as [| c s IH]; simpl; [reflexivity |].
  intros E. apply andb_prop in E as [E1 E2]. now rewrite (H c E1), (IH E2).
Qed.

Section RepShape.

Variable cls : ascii -> bool.
Variable k : option ascii -> string -> option Re.found.

(** A repetition adds only characters of its class. *)
Lemma rep_chars (f : ascii -> bool) :
  (forall c, cls c = true -> f c = true) ->
  (forall prev s r, k prev s = Some r -> all_chars f (Re.text r) = true) ->
  forall s lo hi prev r,
    Re.rep cls k lo hi prev s = Some r -> all_chars f (Re.text r) = true.
Proof.
  intros Hc Hk. induction s as [| c s IH]; intros lo hi prev r H; simpl in H.
  - destruct lo; [eauto | discriminate].
  - destruct (cls c && Re.may_repeat hi) eqn:Ec.
    + destruct (Re.rep cls k (Nat.pred lo) (option_map Nat.pred hi) (Some c) s) eqn:E.
      * injection H as <-. apply andb_prop in Ec as [Ec _].
        simpl. now rewrite (Hc c Ec), (IH _ _ _ _ E).
      * destruct lo; [eauto | discriminate].
    + destruct lo; [eauto | discriminate].
Qed.

(** A bounded repetition adds at most its upper bound. *)
Lemma rep_max (n : nat) :
  (forall prev s r, k prev s = Some r -> (String.length (Re.text r) <= n)%nat) ->
  forall s lo h prev r,
    Re.rep cls k lo (Some h) prev s = Some r -> (String.length (Re.text r) <= h + n)%nat.
Proof.
  intros Hk. induction s as [| c s IH]; intros lo h prev r H.
  - simpl in H. destruct lo; [apply Hk in H; lia | discriminate].
  - destruct h as [| h]; cbn [Re.rep Re.may_repeat option_map Nat.pred] in H.
    + rewrite andb_false_r in H. destruct lo; [apply Hk in H; lia | discriminate].
    + destruct (cls c); cbn [andb] in H.
      * destruct (Re.rep cls k (Nat.pred lo) (Some h) (Some c) s) eqn:E.
        -- injection H as <-. apply IH in E. simpl. lia.
        -- destruct lo; [apply Hk in H; lia | discriminate].
      * destruct lo; [apply Hk in H; lia | discriminate].
Qed.

(** A repetition that must match once adds a character of its class. *)
Lemma rep_has_here (a : ascii) :
  (forall c, cls c = true -> c = a) ->
  forall s lo hi prev r,
    (1 <= lo)%nat -> Re.rep cls k lo hi prev s = Some r -> has_char a (Re.text r) = true.
Proof.
  intros Hc. induction s as [| c s IH]; intros lo hi prev r Hlo H; simpl in H.
  - destruct lo; [lia | discriminate].
  - destruct (cls c && Re.may_repeat hi) eqn:Ec.
    + destruct (Re.rep cls k (Nat.pred lo) (option_map Nat.pred hi) (Some c) s) eqn:E.
      * injection H as <-. apply andb_prop in Ec as [Ec _].
        simpl. rewrite (Hc c Ec), Ascii.eqb_refl. reflexivity.
      * destruct lo; [lia | discriminate].
    + destruct lo; [lia | discriminate].
Qed.

End RepShape.

Lemma match_here_chars (p : Re.pattern) :
  forall prev s r,
    Re.match_here p prev s = Some r -> all_chars (Re.allows p) (Re.text r) = true.
Proof.
  induction p as [| i p IH]; intros prev s r H.
  - injection H as <-. reflexivity.
  - assert (W : forall prev s r, Re.match_here p prev s = Some r ->
                                 all_chars (Re.allows (i :: p)) (Re.text r) = true).
    { intros prev' s' r' H'. apply (all_chars_impl (Re.allows p)); [| eauto].
      intros c Hc. unfold Re.allows in *. simpl. rewrite Hc. apply orb_true_r. }
    destruct i as [cls lo hi | | |]; simpl in H.
    + eapply rep_chars; [| exact W | exact H].
      intros c Hc. unfold Re.allows. simpl. now rewrite Hc.
    + destruct (xorb _ _); [eauto | discriminate].
    + destruct (Re.match_here p prev s) eqn:E; [| discriminate].
      injection H as <-. simpl. eauto.
    + destruct (Re.match_here p prev s) eqn:E; [| discriminate].
      injection H as <-. simpl. eauto.
Qed.

Lemma match_here_max (p : Re.pattern) :
  forall m prev s r,
    Re.max_len p = Some m -> Re.match_here p prev s = Some r ->
    (String.length (Re.text r) <= m)%nat.
Proof.
  induction p as [| i p IH]; intros m prev s r Hm H.
  - injection H as <-. simpl. lia.
  - simpl in Hm. destruct (Re.max_len_item i) as [h |] eqn:Eh; [| discriminate].
    destruct (Re.max_len p) as [n |] eqn:En; [| discriminate].
    injection Hm as <-.
    destruct i as [cls lo hi | | |]; simpl in H, Eh.
    + subst hi. eapply rep_max; [| exact H]. intros. eapply IH; eauto.
    + injection Eh as <-. destruct (xorb _ _); [eauto | discriminate].
    + injection Eh as <-. destruct (Re.match_here p prev s) eqn:E; [| discriminate].
      injection H as <-. simpl. eauto.
    + injection Eh as <-. destruct (Re.match_here p prev s) eqn:E; [| discriminate].
      injection H as <-. simpl. eauto.
Qed.

Lemma match_here_has (a : ascii) (p : Re.pattern) :
  forall prev s r,
    (exists cls lo hi, In (Re.Rep cls lo hi) p /\ (1 <= lo)%nat /\
                       forall c, cls c = true -> c = a) ->
    Re.match_here p prev s = Some r -> has_char a (Re.text r) = true.
Proof.
  induction p as [| i p IH]; intros prev s r (cls & lo & hi & Hin & Hlo & Hc) H.
  - contradiction.
  - destruct Hin as [-> | Hin].
    + simpl in H. eapply rep_has_here; eauto.
    + assert (W : forall prev s r, Re.match_here p prev s = Some r ->
                                   has_char a (Re.text r) = true).
      { intros. eapply IH; eauto 8. }
      destruct i as [cls' lo' hi' | | |]; simpl in H.
      * eapply (rep_preserves cls' (fun r => has_char a (Re.text r) = true));
          [| exact W | exact H].
        intros c r' Hr. simpl. rewrite Hr. apply orb_true_r.
      * destruct (xorb _ _); [eauto | discriminate].
      * destruct (Re.match_here p prev s) eqn:E; [| discriminate].
        injection H as <-. simpl. eauto.
      * destruct (Re.match_here p prev s) eqn:E; [| discriminate].
        injection H as <-. simpl. eauto.
Qed.

Lemma search_is_match (p : Re.pattern) (s : string) (r : Re.found) :
  Re.search p s = Some r -> exists prev s', Re.match_here p prev s' = Some r.
Proof.
  unfold Re.search. destruct (Re.search_from p None s) as [[[prev0 s0] r0] |] eqn:E;
    [| discriminate].
  simpl. intros [= <-]. apply search_from_match in E. eauto.
Qed.

(** ** The recorded phone number and e-mail address *)

Lemma recorded_contacts (a : Analyzer) (url0 : string) (log : Log) :
  let r := fst (analyze_website a url0 log) in
  (forall p, phone r = Some p -> p <> EmptyString ->
     exists pat text m,
       (pat = phone_pattern \/ pat = Full.phone_group_pattern) /\
       Re.search pat text = Some m /\ Re.text m = p) /\
  (forall e, email r = Some e -> e <> EmptyString ->
     exists pat text m,
       (pat = email_pattern \/ pat = Full.email_group_pattern) /\
       Re.search pat text = Some m /\ Re.text m = e).
Proof.
  destruct a as [w | w]; simpl.
  - unfold Full.analyze_website.
    destruct (Full.connect w (ensure_protocol url0) start log) eqn:E.
    + unfold Full.evaluate.
      destruct (Full.BeautifulSoup w content) as [soup | msg]; [| split; discriminate].
      unfold Full.inspect, Full.extract_business_info.
      cbn [fst phone email Full.info_phone Full.info_email].
      set (text := lower (Full.soup_text soup)).
      split; intros x [= <-] Hx.
      * destruct (Re.search Full.phone_group_pattern text) as [m |] eqn:Em;
          [| now contradiction Hx].
        exists Full.phone_group_pattern, text, m. repeat split; auto.
        symmetry. apply (group_is_match Re.phone_body text m eq_refl Em).
      * destruct (Re.search Full.email_group_pattern text) as [m |] eqn:Em;
          [| now contradiction Hx].
        exists Full.email_group_pattern, text, m. repeat split; auto.
        symmetry. apply (group_is_match Re.email_body text m eq_refl Em).
    + apply full_connect_failed in E as (u' & issue & ->). split; discriminate.
  - unfold Simple.analyze_website.
    destruct (Simple.connect w (ensure_protocol url0) start log) eqn:E.
    + unfold Simple.evaluate. destruct (Simple.has_viewport _).
      * cbn [fst phone email].
        set (text := Simple.text_content (fst (Simple.feed w response))).
        split; intros x [= <-] Hx.
        -- destruct (Re.search phone_pattern text) as [m |] eqn:Em;
             [| now contradiction Hx].
           exists phone_pattern, text, m. auto.
        -- destruct (Re.search email_pattern text) as [m |] eqn:Em;
             [| now contradiction Hx].
           exists email_pattern, text, m. auto.
      * cbn. split; intros x [= <-] Hx; now contradiction Hx.
    + cbn. split; intros x [= <-] Hx; now contradiction Hx.
Qed.

(** X8. A phone number recorded by either analyzer, when it is not
    empty, has 10 to 12 characters, all of them digits, '-' or '.'. *)
Theorem recorded_phone_shape (a : Analyzer) (url0 : string) (log : Log) (p : string) :
  phone (fst (analyze_website a url0 log)) = Some p ->
  p <> EmptyString ->
  (10 <= String.length p <= 12)%nat /\
  all_chars (fun c => Re.is_digit c || Re.cls_sep c) p = true.
Proof.
  intros Hp Hne.
  destruct (proj1 (recorded_contacts a url0 log) p Hp Hne)
    as (pat & text & m & Hpat & Hs & <-).
  pose proof (search_min pat text m Hs) as Hmin.
  destruct (search_is_match pat text m Hs) as (prev & s' & Hm).
  assert (Hmax : (String.length (Re.text m) <= 12)%nat)
    by (destruct Hpat as [-> | ->];
        (eapply match_here_max; [| exact Hm]; reflexivity)).
  assert (Hc : all_chars (Re.allows pat) (Re.text m) = true)
    by (eapply match_here_chars; exact Hm).
  split.
  - destruct Hpat as [-> | ->]; simpl in Hmin; lia.
  - apply (all_chars_impl (Re.allows pat)); [| exact Hc].
    intros c. destruct Hpat as [-> | ->]; cbn;
      destruct (Re.is_digit c), (Re.cls_sep c); auto.
Qed.

Lemma recorded_phone_shape_witness :
  let r := fst (analyze_website (full (Scenario.full_serving 200 Scenario.home_page))
                                "example.com" []) in
  phone r = Some "555-123-4567" /\
  (10 <= String.length "555-123-4567" <= 12)%nat /\
  all_chars (fun c => Re.is_digit c || Re.cls_sep c) "555-123-4567" = true.
Proof.
  split; [reflexivity |].
  apply (recorded_phone_shape (full (Scenario.full_serving 200 Scenario.home_page))
                              "example.com" [] "555-123-4567"); [reflexivity | discriminate].
Defined.

(** X9. An e-mail address recorded by either analyzer, when it is not
    empty, has at least six characters, among them an '@' and a '.'. *)
Theorem recorded_email_shape (a : Analyzer) (url0 : string) (log : Log) (e : string) :
  email (fst (analyze_website a url0 log)) = Some e ->
  e <> EmptyString ->
  (6 <= String.length e)%nat /\ has_char "@" e = true /\ has_char "." e = true.
Proof.
  intros He Hne.
  destruct (proj2 (recorded_contacts a url0 log) e He Hne)
    as (pat & text & m & Hpat & Hs & <-).
  pose proof (search_min pat text m Hs) as Hmin.
  destruct (search_is_match pat text m Hs) as (prev & s' & Hm).
  split; [destruct Hpat as [-> | ->]; simpl in Hmin; lia |].
  split.
  - apply (match_here_has "@" pat prev s' m); [| exact Hm].
    exists (Re.is_char "@"), 1%nat, (Some 1%nat).
    split; [destruct Hpat as [-> | ->]; simpl; tauto |].
    split; [lia |]. intros c Hc. symmetry. now apply Ascii.eqb_eq.
  - apply (match_here_has "." pat prev s' m); [| exact Hm].
    exists (Re.is_char "."), 1%nat, (Some 1%nat).
    split; [destruct Hpat as [-> | ->]; simpl; tauto |].
    split; [lia |]. intros c Hc. symmetry. now apply Ascii.eqb_eq.
Qed.

Lemma recorded_email_shape_witness :
  let r := fst (analyze_website (simple (Scenario.simple_serving Scenario.mail_events))
                                "example.com" []) in
  email r = Some "info@acme.com" /\
  (6 <= String.length "info@acme.com")%nat /\
  has_char "@" "info@acme.com" = true /\ has_char "." "info@acme.com" = true.
Proof.
  split; [reflexivity |].
  apply (recorded_email_shape (simple (Scenario.simple_serving Scenario.mail_events))
                              "example.com" [] "info@acme.com"); [reflexivity | discriminate].
Defined.

(** ** The text and the title the parser of the simple analyzer collects *)

Lemma lower_char_idem (c : ascii) : lower_char (lower_char c) = lower_char c.
Proof. destruct c as [[] [] [] [] [] [] [] []]; reflexivity. Qed.

Lemma lower_idem (s : string) : lower (lower s) = lower s.
Proof.
  induction s as [| c s IH]; cbn [lower]; [reflexivity |].
  now rewrite lower_char_idem, IH.
Qed.

Lemma lower_app (a b : string) : lower (a ++ b) = lower a ++ lower b.
Proof.
  induction a as [| c a IH]; cbn [lower append]; [reflexivity | now rewrite IH].
Qed.

Lemma prefix_weaken (x y b : string) : prefix x y = true -> prefix x (y ++ b) = true.
Proof.
  revert y. induction x as [| c x IH]; intros y H.
  - apply prefix_empty.
  - destruct y as [| d y]; [discriminate |].
    apply prefix_cons in H as [-> H]. simpl.
    destruct (ascii_dec d d); [auto | contradiction].
Qed.

Lemma prefix_self_app (x b : string) : prefix x (x ++ b) = true.
Proof.
  induction x as [| c x IH]; [apply prefix_empty |].
  simpl. destruct (ascii_dec c c); [exact IH | contradiction].
Qed.

Lemma prefix_refl (x : string) : prefix x x = true.
Proof.
  induction x as [| c x IH]; [reflexivity |].
  simpl. destruct (ascii_dec c c); [exact IH | contradiction].
Qed.

Lemma str_in_here (x y : string) : prefix x y = true -> str_in x y = true.
Proof. intros H. destruct y; simpl in *; now rewrite H. Qed.

Lemma str_in_app_r (x a y : string) : str_in x y = true -> str_in x (a ++ y) = true.
Proof.
  intros H. induction a as [| c a IH]; [exact H |].
  cbn [append str_in]. rewrite IH. apply orb_true_r.
Qed.

Lemma str_in_app_l (x y b : string) : str_in x y = true -> str_in x (y ++ b) = true.
Proof.
  induction y as [| c y IH]; intros H.
  - simpl in H. rewrite orb_false_r in H. destruct x; [| discriminate].
    apply str_in_here, prefix_empty.
  - cbn [str_in] in H. apply orb_prop in H as [H | H].
    + apply str_in_here. now apply (prefix_weaken x (String c y) b).
    + cbn [append str_in]. rewrite (IH H). apply orb_true_r.
Qed.

Lemma parser_text_grows (events : list Simple.ParseEvent) :
  forall p x,
    str_in x (Simple.text_content p) = true ->
    str_in x (Simple.text_content (fold_left Simple.handle events p)) = true.
Proof.
  induction events as [| e events IH]; intros p x H; simpl; [exact H |].
  apply IH. destruct e as [tag attrs | tag | data]; simpl.
  - unfold Simple.handle_starttag.
    destruct (String.eqb tag "title"); [exact H |].
    destruct (String.eqb tag "meta"); exact H.
  - unfold Simple.handle_endtag. destruct (String.eqb tag "title"); exact H.
  - now apply str_in_app_l.
Qed.

Lemma parser_text_lower (events : list Simple.ParseEvent) :
  forall p,
    lower (Simple.text_content p) = Simple.text_content p ->
    lower (Simple.text_content (fold_left Simple.handle events p))
    = Simple.text_content (fold_left Simple.handle events p).
Proof.
  induction events as [| e events IH]; intros p H; simpl; [exact H |].
  apply IH. destruct e as [tag attrs | tag | data]; simpl.
  - unfold Simple.handle_starttag.
    destruct (String.eqb tag "title"); [exact H |].
    destruct (String.eqb tag "meta"); exact H.
  - unfold Simple.handle_endtag. destruct (String.eqb tag "title"); exact H.
  - rewrite !lower_app, H, lower_idem. reflexivity.
Qed.

(** X10. The text the simple analyzer scans is in lower case (lowering
    it again changes nothing), and every piece of text of the page is in
    it, lower-cased and followed by a space: its phrase checks do not
    depend on the case of the page. *)
Theorem scanned_text_is_lower_case (w : Simple.World) (response : string) :
  let text := Simple.text_content (fst (Simple.feed w response)) in
  lower text = text /\
  forall data, In (Simple.Data data) (fst (Simple.tokenize w response)) ->
               str_in (lower data ++ " ") text = true.
Proof.
  unfold Simple.feed. cbn [fst]. split.
  - now apply parser_text_lower.
  - generalize Simple.new_parser.
    induction (fst (Simple.tokenize w response)) as [| e events IH]; intros p data Hin;
      [contradiction |].
    destruct Hin as [-> | Hin]; simpl.
    + apply parser_text_grows. simpl.
      apply str_in_app_r, str_in_here, prefix_refl.
    + now apply IH.
Qed.

Lemma scanned_text_is_lower_case_witness :
  let w := Scenario.simple_serving Scenario.mail_events in
  str_in "write to info@acme.com - lorem ipsum "
         (Simple.text_content (fst (Simple.feed w "<html>"))) = true /\
  In "Contains Lorem ipsum" (issues (fst (Simple.analyze_website w "example.com" []))).
Proof.
  split; [| vm_compute; tauto].
  apply (proj2 (scanned_text_is_lower_case (Scenario.simple_serving Scenario.mail_events)
                                           "<html>")
               "Write to INFO@ACME.COM - LOREM IPSUM").
  vm_compute. tauto.
Defined.

Lemma take_length (n : nat) (s : string) : (String.length (take n s) <= n)%nat.
Proof.
  unfold take. revert s. induction n as [| n IH]; intros s.
  - destruct s; simpl; lia.
  - destruct s as [| c s]; simpl; [lia |]. specialize (IH s). lia.
Qed.

(** X11. Every record of the simple analyzer, whatever its status, has
    a business name, and it has at most 100 characters. *)
Theorem business_name_is_bounded (w : Simple.World) (url0 : string) (log : Log) :
  exists name,
    business_name (fst (Simple.analyze_website w url0 log)) = Some name /\
    (String.length name <= 100)%nat.
Proof.
  unfold Simple.analyze_website.
  destruct (Simple.connect w (ensure_protocol url0) start log).
  - unfold Simple.evaluate.
    set (name := if is_empty _ then _ else _).
    assert (Hn : (String.length name <= 100)%nat).
    { subst name. destruct (is_empty _); [simpl; lia | apply take_length]. }
    destruct (Simple.has_viewport _); cbn; eauto.
  - cbn. eexists. split; [reflexivity | simpl; lia].
Qed.
(** ** The URLs the command interface takes from a command *)

Lemma prefix_split (x : string) :
  forall y, prefix x y = true -> exists rest, y = x ++ rest.
Proof.
  induction x as [| a x IH]; intros y H.
  - exists y. reflexivity.
  - destruct y as [| b y]; [discriminate H |].
    apply prefix_cons in H as [<- H]. destruct (IH y H) as [rest ->].
    exists rest. reflexivity.
Qed.

Lemma append_assoc (a b c : string) : (a ++ b) ++ c = a ++ (b ++ c).
Proof.
  induction a as [| x a IH]; simpl; [reflexivity | now rewrite IH].
Qed.

Section RepPrefix.

Variable cls : ascii -> bool.
Variable k : option ascii -> string -> option Re.found.

(** A repetition matches the text in front of it. *)
Lemma rep_prefix :
  (forall prev s r, k prev s = Some r -> prefix (Re.text r) s = true) ->
  forall s lo hi prev r,
    Re.rep cls k lo hi prev s = Some r -> prefix (Re.text r) s = true.
Proof.
  intros Hk. induction s as [| c s IH]; intros lo hi prev r H; simpl in H.
  - destruct lo; [eauto | discriminate].
  - destruct (cls c && Re.may_repeat hi).
    + destruct (Re.rep cls k (Nat.pred lo) (option_map Nat.pred hi) (Some c) s) eqn:E.
      * injection H as <-. apply IH in E. simpl.
        destruct (ascii_dec c c) as [_ | N]; [exact E | now destruct N].
      * destruct lo; [eauto | discriminate].
    + destruct lo; [eauto | discriminate].
Qed.

(** A repetition that may not go on is what follows it. *)
Lemma rep_done (prev : option ascii) (s : string) :
  Re.rep cls k 0 (Some 0%nat) prev s = k prev s.
Proof.
  destruct s as [| c s]; simpl; [reflexivity |]. now rewrite andb_false_r.
Qed.

(** [x]: one character of the class, then what follows. *)
Lemma rep_one (prev : option ascii) (s : string) (r : Re.found) :
  Re.rep cls k 1 (Some 1%nat) prev s = Some r ->
  exists c s' r', s = String c s' /\ cls c = true /\ k (Some c) s' = Some r' /\
                  r = Re.push c r'.
Proof.
  destruct s as [| c s]; simpl; [discriminate |].
  rewrite andb_true_r, rep_done.
  destruct (cls c) eqn:Ec; [| discriminate].
  destruct (k (Some c) s) as [r' |] eqn:E; [| discriminate].
  intros [= <-]. eauto 8.
Qed.

(** [x?]: one character of the class if what follows allows it. *)
Lemma rep_optional (prev : option ascii) (s : string) (r : Re.found) :
  Re.rep cls k 0 (Some 1%nat) prev s = Some r ->
  (exists c s' r', s = String c s' /\ cls c = true /\ k (Some c) s' = Some r' /\
                   r = Re.push c r') \/
  k prev s = Some r.
Proof.
  destruct s as [| c s]; simpl; [auto |].
  rewrite andb_true_r, rep_done.
  destruct (cls c) eqn:Ec; [| auto].
  destruct (k (Some c) s) as [r' |] eqn:E; [| auto].
  intros [= <-]. left. eauto 8.
Qed.

End RepPrefix.

Lemma match_here_prefix (p : Re.pattern) :
  forall prev s r, Re.match_here p prev s = Some r -> prefix (Re.text r) s = true.
Proof.
  induction p as [| i p IH]; intros prev s r H.
  - injection H as <-. apply prefix_empty.
  - destruct i as [cls lo hi | | |]; simpl in H.
    + eapply rep_prefix; [| exact H]. exact IH.
    + destruct (xorb _ _); [eauto | discriminate].
    + destruct (Re.match_here p prev s) eqn:E; [| discriminate].
      injection H as <-. simpl. eauto.
    + destruct (Re.match_here p prev s) eqn:E; [| discriminate].
      injection H as <-. simpl. eauto.
Qed.

Lemma search_from_suffix (p : Re.pattern) :
  forall s prev prev0 s0 r,
    Re.search_from p prev s = Some (prev0, s0, r) -> exists a, s = a ++ s0.
Proof.
  induction s as [| c s IH]; intros prev prev0 s0 r H; simpl in H.
  - destruct (Re.match_here p prev EmptyString); [| discriminate].
    injection H as _ <- _. exists EmptyString. reflexivity.
  - destruct (Re.match_here p prev (String c s)).
    + injection H as _ <- _. exists EmptyString. reflexivity.
    + apply IH in H as [a ->]. exists (String c a). reflexivity.
Qed.

Lemma drop_suffix (n : nat) :
  forall prev s prev1 s1, Re.drop n prev s = (prev1, s1) -> exists a, s = a ++ s1.
Proof.
  induction n as [| n IH]; intros prev s prev1 s1 H; simpl in H.
  - injection H as _ <-. exists EmptyString. reflexivity.
  - destruct s as [| c s].
    + injection H as _ <-. exists EmptyString. reflexivity.
    + apply IH in H as [a ->]. exists (String c a). reflexivity.
Qed.

(** Every text [findall] returns is a match of the pattern at some
    position of the string. *)
Lemma findall_from_in (p : Re.pattern) (x : string) :
  forall fuel prev s,
    In x (Re.findall_from fuel p prev s) ->
    exists prev' s' r a,
      s = a ++ s' /\ Re.match_here p prev' s' = Some r /\ x = Re.text r.
Proof.
  induction fuel as [| fuel IH]; intros prev s H; simpl in H; [contradiction |].
  destruct (Re.search_from p prev s) as [[[prev0 s0] r] |] eqn:E; [| contradiction].
  destruct (search_from_suffix _ _ _ _ _ _ E) as [a ->].
  apply search_from_match in E.
  destruct H as [<- | H]; [exists prev0, s0, r, a; auto |].
  assert (W : forall prev1 s1 b, s0 = b ++ s1 ->
                In x (Re.findall_from fuel p prev1 s1) ->
                exists prev' s' r a0,
                  a ++ s0 = a0 ++ s' /\ Re.match_here p prev' s' = Some r /\ x = Re.text r).
  { intros prev1 s1 b -> H1. apply IH in H1 as (prev' & s' & r' & a0 & -> & Hm & Hx).
    exists prev', s', r', (a ++ b ++ a0). rewrite !append_assoc. auto. }
  destruct (Re.text r) as [| c t] eqn:Et.
  - destruct s0 as [| c s1]; [contradiction |].
    apply (W (Some c) s1 (String c EmptyString)); [reflexivity | exact H].
  - destruct (Re.drop (String.length (String c t)) prev0 s0) as [prev1 s1] eqn:Ed.
    apply drop_suffix in Ed as [b ->]. eapply W; [reflexivity | exact H].
Qed.

Lemma findall_in (p : Re.pattern) (s x : string) :
  In x (Re.findall p s) ->
  exists prev' r a b, s = a ++ x ++ b /\ Re.match_here p prev' (x ++ b) = Some r /\
                      x = Re.text r.
Proof.
  intros H. apply findall_from_in in H as (prev' & s' & r & a & -> & Hm & ->).
  destruct (prefix_split _ _ (match_here_prefix _ _ _ _ Hm)) as [b Hb].
  exists prev', r, a, b. rewrite <- Hb. auto.
Qed.

(** A match of [https?://[^\s]+] starts with one of the two schemes. *)
Lemma url_match_scheme (prev : option ascii) (s : string) (r : Re.found) :
  Re.match_here Command.url_pattern prev s = Some r ->
  startswith (Re.text r) "http://" = true \/ startswith (Re.text r) "https://" = true.
Proof.
  unfold Command.url_pattern, Re.one, Re.optional. cbn [Re.match_here]. intros H.
  repeat match goal with
         | H : Re.rep _ _ 1 (Some 1%nat) _ _ = Some _ |- _ =>
             apply rep_one in H as (? & ? & ? & -> & ?Hc & H & ->);
             apply Ascii.eqb_eq in Hc; subst
         end.
  apply rep_optional in H as [(c & s' & r' & -> & Hc & H & ->) | H].
  - apply Ascii.eqb_eq in Hc; subst.
    repeat match goal with
           | H : Re.rep _ _ 1 (Some 1%nat) _ _ = Some _ |- _ =>
               apply rep_one in H as (? & ? & ? & -> & ?Hc & H & ->);
               apply Ascii.eqb_eq in Hc; subst
           end.
    right. unfold startswith. cbn. apply prefix_empty.
  - repeat match goal with
           | H : Re.rep _ _ 1 (Some 1%nat) _ _ = Some _ |- _ =>
               apply rep_one in H as (? & ? & ? & -> & ?Hc & H & ->);
               apply Ascii.eqb_eq in Hc; subst
           end.
    left. unfold startswith. cbn. apply prefix_empty.
Qed.

Lemma covered_app (d : string) (urls extra : list string) :
  Command.covered d urls = true -> Command.covered d (urls ++ extra)%list = true.
Proof.
  unfold Command.covered. rewrite existsb_app. intros ->. reflexivity.
Qed.

Lemma covered_add (d d' : string) (urls : list string) :
  Command.covered d urls = true -> Command.covered d (Command.add_domain urls d') = true.
Proof.
  intros H. unfold Command.add_domain.
  destruct (Command.covered d' urls); [exact H | now apply covered_app].
Qed.

Lemma covered_add_here (d : string) (urls : list string) :
  Command.covered d (Command.add_domain urls d) = true.
Proof.
  unfold Command.add_domain. destruct (Command.covered d urls) eqn:E; [exact E |].
  unfold Command.covered. rewrite existsb_app. cbn [existsb].
  rewrite (str_in_app_r d "https://" d (str_in_here d d (prefix_refl d))).
  rewrite orb_true_l. apply orb_true_r.
Qed.

Lemma fold_add_covered (ds : list string) :
  forall urls d,
    Command.covered d urls = true \/ In d ds ->
    Command.covered d (fold_left Command.add_domain ds urls) = true.
Proof.
  induction ds as [| d0 ds IH]; intros urls d H; cbn [fold_left].
  - destruct H as [H | []]. exact H.
  - apply IH. destruct H as [H | [-> | H]].
    + left. now apply covered_add.
    + left. apply covered_add_here.
    + now right.
Qed.

(** The loop over the domains only appends, and what it appends is
    'https://' and a domain that no URL before it contains. *)
Lemma fold_add_appends (ds : list string) :
  forall urls,
    exists extra,
      fold_left Command.add_domain ds urls = (urls ++ extra)%list /\
      Forall (fun u => exists d, In d ds /\ u = "https://" ++ d /\
                                 Command.covered d urls = false) extra.
Proof.
  induction ds as [| d0 ds IH]; intros urls; cbn [fold_left].
  - exists []. now rewrite app_nil_r.
  - destruct (IH (Command.add_domain urls d0)) as (extra & E & F). rewrite E. clear E.
    unfold Command.add_domain in F |- *. destruct (Command.covered d0 urls) eqn:Ec.
    + exists extra. split; [reflexivity |].
      eapply Forall_impl; [| exact F]. intros u (d & Hd & Hu & Hc). exists d.
      repeat split; [now right | exact Hu | exact Hc].
    + exists (("https://" ++ d0)%string :: extra). rewrite <- app_assoc. split; [reflexivity |].
      constructor.
      * exists d0. repeat split; [now left | exact Ec].
      * eapply Forall_impl; [| exact F]. intros u (d & Hd & Hu & Hc). exists d.
        repeat split; [now right | exact Hu |].
        destruct (Command.covered d urls) eqn:Ed; [| reflexivity].
        now rewrite (covered_app d urls _ Ed) in Hc.
Qed.

(** X12. Every URL the command interface takes from a text starts with
    'http://' or 'https://', so the analyzer it is passed to requests it
    as it is. *)
Theorem extracted_urls_have_scheme (text u : string) :
  In u (Command.extract_urls text) ->
  (startswith u "http://" = true \/ startswith u "https://" = true) /\
  ensure_protocol u = u.
Proof.
  intros H.
  assert (S : startswith u "http://" = true \/ startswith u "https://" = true).
  { unfold Command.extract_urls in H.
    destruct (fold_add_appends (Re.findall Command.domain_pattern text)
                               (Re.findall Command.url_pattern text)) as (extra & E & F).
    rewrite E in H. apply in_app_or in H as [H | H].
    - apply findall_in in H as (prev & r & a & b & _ & Hm & ->).
      eapply url_match_scheme. exact Hm.
    - rewrite Forall_forall in F. destruct (F u H) as (d & _ & -> & _).
      right. unfold startswith. cbn. apply prefix_empty. }
  split; [exact S |]. unfold ensure_protocol.
  destruct S as [-> | ->]; [reflexivity | now rewrite orb_true_r].
Qed.

Lemma extracted_urls_have_scheme_witness :
  In "https://example.com" (Command.extract_urls "look at example.com") /\
  ensure_protocol "https://example.com" = "https://example.com".
Proof.
  assert (H : In "https://example.com" (Command.extract_urls "look at example.com")).
  { vm_compute. auto. }
  split; [exact H |].
  exact (proj2 (extracted_urls_have_scheme "look at example.com" "https://example.com" H)).
Defined.

(** X13. The URLs taken from a text are the URLs written with a scheme,
    in their order, followed by 'https://' and a domain for domains of
    the text that no URL with a scheme contains; every domain of the text
    is contained in one of the URLs taken. *)
Theorem extracted_urls_cover_domains (text : string) :
  let urls := Re.findall Command.url_pattern text in
  let domains := Re.findall Command.domain_pattern text in
  (exists extra,
     Command.extract_urls text = (urls ++ extra)%list /\
     Forall (fun u => exists d, In d domains /\ u = "https://" ++ d /\
                                Command.covered d urls = false) extra) /\
  forall d, In d domains -> exists u, In u (Command.extract_urls text) /\ str_in d u = true.
Proof.
  intros urls domains. split.
  - apply fold_add_appends.
  - intros d Hd.
    pose proof (fold_add_covered domains urls d (or_intror Hd)) as H.
    unfold Command.covered in H. apply existsb_exists in H. exact H.
Qed.

(** ** The case of the URLs of a command *)

Lemma lower_fixed_app (a b : string) :
  lower (a ++ b) = a ++ b -> lower a = a /\ lower b = b.
Proof.
  induction a as [| c a IH]; simpl; [auto |].
  intros [= Hc H]. destruct (IH H) as [Ha Hb]. now rewrite Hc, Ha.
Qed.

(** X14. The command interface lower-cases a command before it looks
    for URLs: every URL it passes to the analyzer is in lower case,
    whatever the case it was written in. *)
Theorem command_urls_are_lower_case (command_text : string) (urls : list string) :
  Command.process_command command_text = Command.Analyze urls ->
  urls <> [] /\ Forall (fun u => lower u = u) urls.
Proof.
  unfold Command.process_command.
  set (text := lower (strip command_text)).
  assert (Ht : lower text = text) by apply lower_idem.
  assert (Hm : forall p x, In x (Re.findall p text) -> lower x = x).
  { intros p x H. apply findall_in in H as (_ & _ & a & b & E & _).
    rewrite E in Ht. apply lower_fixed_app in Ht as [_ Ht].
    now apply lower_fixed_app in Ht as [Ht _]. }
  assert (Hu : Forall (fun u => lower u = u) (Command.extract_urls text)).
  { unfold Command.extract_urls.
    destruct (fold_add_appends (Re.findall Command.domain_pattern text)
                               (Re.findall Command.url_pattern text)) as (extra & E & F).
    rewrite E. apply Forall_app. split.
    - apply Forall_forall. intros u. apply Hm.
    - eapply Forall_impl; [| exact F]. intros u (d & Hd & -> & _).
      rewrite lower_app, (Hm _ _ Hd). reflexivity. }
  destruct (Command.extract_urls text) as [| u us] eqn:E.
  - destruct (existsb _ _); discriminate.
  - intros [= <-]. split; [discriminate | exact Hu].
Qed.

Lemma command_urls_are_lower_case_witness :
  Command.process_command "Analyze HTTPS://Example.COM/About" =
    Command.Analyze ["https://example.com/about"] /\
  lower "https://example.com/about" = "https://example.com/about".
Proof.
  assert (H : Command.process_command "Analyze HTTPS://Example.COM/About" =
              Command.Analyze ["https://example.com/about"]) by (vm_compute; reflexivity).
  split; [exact H |].
  exact (Forall_inv (proj2 (command_urls_are_lower_case _ _ H))).
Defined.

(** ** The phrases of a page under construction *)

Lemma str_in_split (x : string) :
  forall t, str_in x t = true -> exists l r, t = l ++ x ++ r.
Proof.
  induction t as [| c t IH]; cbn [str_in]; intros H; apply orb_prop in H as [H | H].
  - apply prefix_split in H as [r ->]. exists EmptyString, r. reflexivity.
  - discriminate.
  - apply prefix_split in H as [r ->]. exists EmptyString, r. reflexivity.
  - destruct (IH H) as (l & r & ->). exists (String c l), r. reflexivity.
Qed.

Lemma str_in_middle (x l r : string) : str_in x (l ++ x ++ r) = true.
Proof.
  apply str_in_app_r, str_in_here, prefix_self_app.
Qed.

(** A text that contains a phrase contains the end of the phrase. *)
Lemma str_in_tail (a b t : string) : str_in (a ++ b) t = true -> str_in b t = true.
Proof.
  intros H. apply str_in_split in H as (l & r & ->).
  rewrite append_assoc, <- (append_assoc l a). apply str_in_middle.
Qed.

(** X15. The check for a page under construction gives the same answer
    in both analyzers, although the full analyzer has one phrase more:
    'site under construction' and 'page under construction' are found
    only where 'under construction' is.  A page is under construction
    exactly when its text contains 'under construction', 'coming soon'
    or 'website under development'. *)
Theorem construction_phrases_agree (text : string) :
  under_construction Full.construction_phrases text =
    under_construction Simple.construction_phrases text /\
  under_construction Simple.construction_phrases text =
    str_in "under construction" text || str_in "coming soon" text
    || str_in "website under development" text.
Proof.
  unfold under_construction, Full.construction_phrases, Simple.construction_phrases.
  cbn [existsb].
  destruct (str_in "under construction" text) eqn:E; [split; reflexivity |].
  assert (Hs : str_in "site under construction" text = false).
  { destruct (str_in "site under construction" text) eqn:Es; [| reflexivity].
    apply (str_in_tail "site " "under construction") in Es. congruence. }
  assert (Hp : str_in "page under construction" text = false).
  { destruct (str_in "page under construction" text) eqn:Es; [| reflexivity].
    apply (str_in_tail "page " "under construction") in Es. congruence. }
  rewrite Hs, Hp, !orb_false_r. split; reflexivity.
Qed.

(** ** The year of an outdated copyright notice *)

(** X16. A completed analysis of the full analyzer (status 'analyzed':
    the page is fetched and the parser accepts it) lists 'Outdated
    copyright: y' exactly for the least year y from 2015 to two years
    before the current one whose notice, with the copyright sign or the
    word, the lower-cased text of the parsed page contains: a notice of
    the current or the last year is never an issue, and a later year is
    not listed beside an earlier one. *)
Theorem full_lists_least_outdated_year (w : Full.World) (url0 : string) (log : Log)
    (u : string) (code : Z) (content : string) (t : Tally) (log' : Log) (y : Z) :
  Full.connect w (ensure_protocol url0) start log = Full.Got u code content t log' ->
  let r := fst (Full.analyze_website w url0 log) in
  status r = analyzed ->
  exists soup,
    Full.BeautifulSoup w content = Full.Parsed soup /\
    let text_content := lower (Full.soup_text soup) in
    let current_year := year (Full.now w (clock log')) in
    (In ("Outdated copyright: " ++ str_of_Z y) (issues r) <->
     2015 <= y <= current_year - 2 /\ mentions_year copyright_sign text_content y = true /\
     forall z, 2015 <= z < y -> mentions_year copyright_sign text_content z = false).
Proof.
  intros H. unfold Full.analyze_website. rewrite H. cbv zeta. intros Hs.
  destruct (full_evaluate_analyzed _ _ _ _ _ _ Hs) as [soup Es].
  exists soup. split; [exact Es |].
  rewrite (full_evaluate_parsed _ _ _ _ _ _ _ Es).
  apply full_copyright_issue. eapply full_connect_issues. exact H.
Qed.

Lemma full_lists_least_outdated_year_witness :
  let w := Scenario.full_serving 200 Scenario.stale_page in
  In "Outdated copyright: 2016" (issues (fst (Full.analyze_website w "https://example.com" []))).
Proof.
  destruct (full_lists_least_outdated_year
              (Scenario.full_serving 200 Scenario.stale_page) "https://example.com" []
              "https://example.com" 200 "<html>" start [Get "https://example.com"] 2016
              eq_refl eq_refl) as (soup & Es & H).
  injection Es as <-. apply (proj2 H).
  split; [vm_compute; split; discriminate |].
  split; [vm_compute; reflexivity |].
  intros z Hz. assert (z = 2015) as -> by lia. vm_compute. reflexivity.
Defined.

(** X17. A completed analysis of the simple analyzer lists 'Outdated
    copyright: y' exactly for the least year y from 2015 to two years
    before the current one for which the text it scans contains
    'copyright' and the year: the notice written with the copyright sign
    plays no part in it. *)
Theorem simple_lists_least_worded_year (w : Simple.World) (url0 : string) (log : Log)
    (u response : string) (t : Tally) (log' : Log) (y : Z) :
  Simple.connect w (ensure_protocol url0) start log = Simple.Got u response t log' ->
  let r := fst (Simple.analyze_website w url0 log) in
  let text := Simple.text_content (fst (Simple.feed w response)) in
  let current_year := year (Simple.now w (clock log')) in
  status r = analyzed ->
  (In ("Outdated copyright: " ++ str_of_Z y) (issues r) <->
   2015 <= y <= current_year - 2 /\ str_in ("copyright " ++ str_of_Z y) text = true /\
   forall z, 2015 <= z < y -> str_in ("copyright " ++ str_of_Z z) text = false).
Proof.
  intros H. pose proof (simple_connect_issues _ _ _ _ _ _ _ H) as Ht.
  pose proof (simple_sign_never_matches w response) as S. cbv zeta in S.
  unfold Simple.analyze_website. rewrite H. cbv zeta.
  assert (L : forall cy,
            outdated_copyright copyright_sign_twice_encoded cy
              (Simple.text_content (fst (Simple.feed w response))) = Some y <->
            2015 <= y <= cy - 2 /\
            str_in ("copyright " ++ str_of_Z y)
                   (Simple.text_content (fst (Simple.feed w response))) = true /\
            forall z, 2015 <= z < y ->
                      str_in ("copyright " ++ str_of_Z z)
                             (Simple.text_content (fst (Simple.feed w response))) = false).
  { intros cy. rewrite outdated_copyright_least, S. split; intros (A & B & C).
    - repeat split; try lia; [exact B |]. intros z Hz. rewrite <- S. now apply C.
    - repeat split; try lia; [exact B |]. intros z Hz. rewrite S. now apply C. }
  rewrite <- L. clear L S.
  unfold Simple.evaluate.
  destruct (Simple.has_viewport _); [| discriminate].
  cbn [fst issues]. intros _.
  rewrite !in_deduct, in_copyright, !in_deduct. split.
  - intros Hin.
    repeat match goal with
           | H : _ \/ _ |- _ => destruct H as [H | H]
           | H : _ /\ _ |- _ => destruct H
           | H : exists _, _ |- _ => destruct H
           end; try not_copyright_issue;
      try match goal with
          | E : outdated_copyright _ _ _ = Some ?y',
            H : _ ++ str_of_Z y = _ ++ str_of_Z ?y' |- _ =>
              apply append_inj in H; apply str_of_Z_inj in H; subst y'; exact E
          end;
      (destruct (snd (Simple.feed w response));
       [ match goal with
         | H : In _ (fst (add_issue _ _ _)) |- _ =>
             apply in_add in H as [H | H]; [absent_at_start | discriminate H]
         end
       | absent_at_start ]).
  - intros Hc. do 3 left. right. eauto.
Qed.

Lemma simple_lists_least_worded_year_witness :
  let w := Scenario.simple_serving [Simple.Data "Copyright 2017 Acme Plumbing"] in
  In "Outdated copyright: 2017" (issues (fst (Simple.analyze_website w "https://example.com" []))).
Proof.
  apply (proj2 (simple_lists_least_worded_year
                  (Scenario.simple_serving [Simple.Data "Copyright 2017 Acme Plumbing"])
                  "https://example.com" [] "https://example.com" "<html>" start
                  [Get "https://example.com"] 2017 eq_refl eq_refl)).
  split; [vm_compute; split; discriminate |].
  split; [vm_compute; reflexivity |].
  intros z Hz. assert (z = 2015 \/ z = 2016) as [-> | ->] by lia; vm_compute; reflexivity.
Defined.

(** ** The searches the command interface recommends *)

(** X18. When the command interface answers a command with search
    recommendations, the command has no URL and no domain in it, and the
    recommendations name one of the four services and one of the three
    places: the service is never left empty. *)
Theorem search_names_a_service (command_text service place : string) :
  Command.process_command command_text = Command.Search service place ->
  Command.extract_urls (lower (strip command_text)) = [] /\
  In service ["HVAC"; "plumbing"; "landscaping"; "contractor"] /\
  In place ["Greenville SC"; "Spartanburg SC"; "Anderson SC"].
Proof.
  unfold Command.process_command.
  destruct (Command.extract_urls (lower (strip command_text))); [| discriminate].
  destruct (existsb _ _) eqn:E; [| discriminate].
  intros [= <- <-]. split; [reflexivity |].
  unfold Command.search_terms in E. cbn [existsb] in E.
  unfold Command.service_type, Command.location. split.
  - destruct (str_in "hvac" _); [simpl; auto |].
    destruct (str_in "plumbing" _); [simpl; auto |].
    destruct (str_in "plumber" _); [simpl; auto |].
    destruct (str_in "landscaping" _); [simpl; auto |].
    destruct (str_in "lawn care" _); [simpl; auto |].
    destruct (str_in "contractor" _); [simpl; auto | discriminate E].
  - destruct (str_in "spartanburg" _); [simpl; auto |].
    destruct (str_in "anderson" _); simpl; auto.
Qed.

Lemma search_names_a_service_witness :
  Command.process_command "Find a PLUMBER or contractor in Anderson" =
    Command.Search "plumbing" "Anderson SC" /\
  In "plumbing" ["HVAC"; "plumbing"; "landscaping"; "contractor"].
Proof.
  assert (H : Command.process_command "Find a PLUMBER or contractor in Anderson" =
              Command.Search "plumbing" "Anderson SC") by (vm_compute; reflexivity).
  split; [exact H |].
  exact (proj1 (proj2 (search_names_a_service _ _ _ H))).
Defined.

(** ** The URLs read from a file *)

Lemma lstrip_head (s : string) (c : ascii) (r : string) :
  lstrip s = String c r -> is_space c = false.
Proof.
  induction s as [| a s IH]; simpl; [discriminate |].
  destruct (is_space a) eqn:E; [exact IH |]. intros [= <- _]. exact E.
Qed.

Lemma rstrip_head (c : ascii) (s : string) :
  is_space c = false -> exists r, rstrip (String c s) = String c r.
Proof.
  intros E. simpl. destruct (rstrip s); [rewrite E |]; eauto.
Qed.

Lemma rstrip_idem (s : string) : rstrip (rstrip s) = rstrip s.
Proof.
  induction s as [| c s IH]; [reflexivity |]. cbn [rstrip].
  destruct (rstrip s) as [| d r] eqn:E.
  - destruct (is_space c) eqn:Ec; [reflexivity |]. simpl. now rewrite Ec.
  - cbn [rstrip] in IH |- *. rewrite IH. reflexivity.
Qed.

(** Stripping what is stripped changes nothing. *)
Lemma strip_idem (s : string) : strip (strip s) = strip s.
Proof.
  unfold strip. destruct (lstrip s) as [| c t] eqn:E; [reflexivity |].
  apply lstrip_head in E. destruct (rstrip_head c t E) as [r Hr].
  rewrite Hr. cbn [lstrip]. rewrite E, <- Hr. apply rstrip_idem.
Qed.

Lemma filter_both {A : Type} (f g : A -> bool) (l : list A) :
  filter (fun x => f x && g x) l = filter f (filter g l).
Proof.
  induction l as [| x l IH]; simpl; [reflexivity |].
  destruct (g x); simpl.
  - rewrite andb_true_r. now rewrite IH.
  - now rewrite andb_false_r.
Qed.

(** X19. Every URL either analyzer reads from a file is a line of the
    file without the white space around it and is not empty; the simple
    analyzer reads what the full analyzer reads from the file without
    its lines that start with '#'. *)
Theorem urls_of_a_file_are_stripped (lines : list string) :
  Forall (fun u => u <> EmptyString /\ strip u = u /\
                   exists line, In line lines /\ u = strip line)
         (Command.read_urls_full lines) /\
  Command.read_urls_simple lines =
    Command.read_urls_full (filter (fun line => negb (startswith line "#")) lines).
Proof.
  split.
  - unfold Command.read_urls_full. apply Forall_forall. intros u Hu.
    apply in_map_iff in Hu as (line & <- & Hl). apply filter_In in Hl as [Hl He].
    split; [| split; [apply strip_idem | eauto]].
    destruct (strip line); [discriminate He | discriminate].
  - unfold Command.read_urls_simple, Command.read_urls_full. now rewrite filter_both.
Qed.

(** ** The order of the issues *)

Lemma in_order_snoc (l : list string) (x : string) :
  Report.in_order l ->
  Forall (fun y => (Report.check_of y < Report.check_of x)%nat) l ->
  Report.in_order (l ++ [x]).
Proof.
  unfold Report.in_order. induction 1 as [| y l Hs IH Hy]; intros F; simpl.
  - constructor; constructor.
  - inversion F as [| ? ? Fy Fl]; subst. constructor; [now apply IH |].
    apply Forall_app. split; [exact Hy | constructor; [exact Fy | constructor]].
Qed.

Lemma in_order_nodup (l : list string) : Report.in_order l -> NoDup l.
Proof.
  unfold Report.in_order. induction 1 as [| y l Hs IH Hy]; constructor; [| exact IH].
  intros Hin. rewrite Forall_forall in Hy. specialize (Hy _ Hin). lia.
Qed.

Lemma upto_in_order (k : nat) (t : Tally) : Report.upto k t -> Report.in_order (fst t).
Proof. now intros [H _]. Qed.

Lemma upto_add (issue : string) (points : Z) (t : Tally) (k : nat) :
  Report.upto k t -> (k <= Report.check_of issue)%nat ->
  Report.upto (S (Report.check_of issue)) (add_issue issue points t).
Proof.
  intros [Hs Hf] Hk. unfold Report.upto, add_issue. cbn [fst]. split.
  - apply in_order_snoc; [exact Hs |].
    eapply Forall_impl; [| exact Hf]. intros y Hy. simpl in Hy. lia.
  - apply Forall_app. split.
    + eapply Forall_impl; [| exact Hf]. intros y Hy. simpl in Hy. lia.
    + constructor; [lia | constructor].
Qed.

Lemma upto_deduct (c : bool) (issue : string) (points : Z) (t : Tally) (k : nat) :
  Report.upto k t -> (k <= Report.check_of issue)%nat ->
  Report.upto (S (Report.check_of issue)) (deduct c issue points t).
Proof.
  intros H Hk. unfold deduct. destruct c; [now apply (upto_add issue points t k) |].
  destruct H as [Hs Hf]. split; [exact Hs |].
  eapply Forall_impl; [| exact Hf]. intros y Hy. simpl in Hy. lia.
Qed.

Lemma check_of_http (s : string) : Report.check_of ("HTTP " ++ s) = 1%nat.
Proof. unfold Report.check_of, startswith. cbn. now rewrite prefix_empty. Qed.

Lemma check_of_parsing (s : string) : Report.check_of ("HTML parsing error: " ++ s) = 1%nat.
Proof. unfold Report.check_of, startswith. cbn. now rewrite prefix_empty. Qed.

Lemma check_of_copyright (s : string) : Report.check_of ("Outdated copyright: " ++ s) = 4%nat.
Proof. unfold Report.check_of, startswith. cbn. now rewrite prefix_empty. Qed.

Lemma check_of_broken (n : nat) :
  Report.check_of (str_of_nat n ++ " broken images") = 11%nat.
Proof.
  unfold Report.check_of, broken_count, str_of_nat.
  change " broken images" with (String " " "broken images").
  rewrite split_digits. simpl fst. simpl snd.
  rewrite NilEmpty.usu. reflexivity.
Qed.

Lemma upto_copyright (sign : string) (cy : Z) (text : string) (t : Tally) (k : nat) :
  Report.upto k t -> (k <= 4)%nat -> Report.upto 5 (check_copyright sign cy text t).
Proof.
  intros H Hk. unfold check_copyright. destruct (outdated_copyright sign cy text) as [y |].
  - rewrite <- (check_of_copyright (str_of_Z y)) at 1.
    apply (upto_add _ 10 t k H). rewrite check_of_copyright. exact Hk.
  - destruct H as [Hs Hf]. split; [exact Hs |].
    eapply Forall_impl; [| exact Hf]. intros x Hx. simpl in Hx. lia.
Qed.

Lemma upto_connected (t : Tally) :
  fst t = [] \/ fst t = ["HTTPS not available"] -> Report.upto 1 t.
Proof.
  unfold Report.upto, Report.in_order. intros [-> | ->].
  - split; constructor.
  - split; repeat constructor.
Qed.

Ltac order :=
  repeat first
    [ eassumption
    | eapply upto_copyright
    | eapply upto_deduct
    | eapply upto_add
    | (rewrite ?check_of_http, ?check_of_parsing, ?check_of_broken; vm_compute; lia) ].

(** X20. In every record of either analyzer the issues are listed in
    the order of the checks, and none is listed twice. *)
Theorem issues_follow_the_checks (a : Analyzer) (url0 : string) (log : Log) :
  let l := issues (fst (analyze_website a url0 log)) in
  Report.in_order l /\ NoDup l.
Proof.
  cbv zeta.
  assert (H : Report.in_order (issues (fst (analyze_website a url0 log))));
    [| split; [exact H | now apply in_order_nodup]].
  assert (One : forall x : string, Report.in_order [x]) by (intros x; repeat constructor).
  destruct a as [w | w]; simpl.
  - unfold Full.analyze_website.
    destruct (Full.connect w (ensure_protocol url0) start log) eqn:E.
    + apply full_connect_issues, upto_connected in E.
      unfold Full.evaluate.
      destruct (Full.BeautifulSoup w content) as [soup | msg]; [| apply One].
      unfold Full.inspect, Full.check_status. cbn [fst issues].
      eapply upto_in_order. order.
    + apply full_connect_failed in E as (u' & issue & ->). apply One.
  - unfold Simple.analyze_website.
    destruct (Simple.connect w (ensure_protocol url0) start log) eqn:E; [| apply One].
    apply simple_connect_issues, upto_connected in E.
    unfold Simple.evaluate. destruct (Simple.has_viewport _); [| apply One].
    cbn [fst issues]. eapply upto_in_order.
    destruct (snd (Simple.feed w response)); order.
Qed.
